(** * CredentialsInput: the OAuth popup handshake and the credential selector

    A shallow embedding of
    [autogpt_platform/frontend/src/components/integrations/credentials-input.tsx].

    The React component keeps five pieces of state ([useState]) and, for each
    run of [handleOAuthLogin] that gets past the popup check, one closure
    environment holding the popup handle, the [AbortController], the message
    listener and the timeout.  The embedding keeps these in one [World]
    record and passes it explicitly.  Every [await] splits an async function
    in two: the part before it registers a pending call, the part after it
    runs when the environment settles that call.  Calls that leave the
    component (backend API, [window.open], [popup.close], the
    [onSelectCredentials] prop) are appended to a log. *)

From Stdlib Require Import String List Bool Arith Lia ZArith.
From stdpp Require Import base list strings.
Import ListNotations.

Local Open Scope string_scope.
Local Open Scope list_scope.

(** ** Data *)

(** The three credential kinds the file tests for with [c.type == "..."]. *)
Inductive CredentialsType := oauth2 | api_key | user_password.

Definition CredentialsType_eqb (a b : CredentialsType) : bool :=
  match a, b with
  | oauth2, oauth2 | api_key, api_key | user_password, user_password => true
  | _, _ => false
  end.

(** [CredentialsMetaInput], imported from the API types: what
    [onSelectCredentials] receives.  The fields are the ones this file
    writes. *)
Record CredentialsMetaInput := {
  mi_id : string;
  mi_type : CredentialsType;
  mi_title : option string;
  mi_provider : string;
}.

(** [CredentialsMetaResponse]: an element of [savedCredentials] and the value
    [oAuthCallback] resolves to; the fields are the ones this file reads. *)
Record CredentialsMetaResponse := {
  cr_id : string;
  cr_provider : string;
  cr_type : CredentialsType;
  cr_title : option string;
  cr_username : option string;
}.

(** Passing a saved credential where a [CredentialsMetaInput] is expected
    (the auto-select effect does so). *)
Definition asMetaInput (c : CredentialsMetaResponse) : CredentialsMetaInput :=
  {| mi_id := cr_id c; mi_type := cr_type c;
     mi_title := cr_title c; mi_provider := cr_provider c |}.

(** What the [useCredentials] hook yields once loaded, with the fields
    the component destructures ([oAuthCallback] is the exchange call of
    the log below). *)
Record CredentialsProviderData := {
  provider : string;
  providerName : string;
  supportsApiKey : bool;
  supportsOAuth2 : bool;
  supportsUserPassword : bool;
  savedCredentials : list CredentialsMetaResponse;
}.

(** [useCredentials] returns [null], a loading record without
    [savedCredentials], or the loaded record. *)
Inductive CredentialsData :=
| Loading
| Loaded (d : CredentialsProviderData).

(** [OAuthPopupResultMessage] without its discriminator. *)
Inductive PopupResult :=
| Success (code state : string)
| Failure (message : string).

(** [e.data] as the guard at the top of [handleMessage] sees it: a value
    whose [typeof] is not "object", [null] (whose [typeof] is "object"),
    or an object with or without a [message_type] property. *)
Inductive MessageData :=
| NotAnObject
| NullData
| ObjectData (message_type : option string) (body : PopupResult).

Definition popupMessage (r : PopupResult) : MessageData :=
  ObjectData (Some "oauth_popup_result") r.

(** Values a backend promise can reject with; [rejectionText] is
    [error instanceof Error ? error.message : String(error)]. *)
Inductive Rejection :=
| ErrorInstance (message : string)
| OtherValue (rendered : string).

Definition rejectionText (e : Rejection) : string :=
  match e with
  | ErrorInstance m => m
  | OtherValue s => s
  end.

Inductive Settled (A : Type) :=
| Resolved (a : A)
| Rejected (e : Rejection).
Arguments Resolved {A} a.
Arguments Rejected {A} e.

Record LoginResponse := {
  login_url : string;
  state_token : string;
}.

(** How a synchronous function or an async segment ends. *)
Inductive Completion :=
| Returns
| Throws (e : Rejection)
| ThrowsTypeError (property : string).

(** ** The browser objects one login attempt owns *)

Module AbortController.
Record t := { aborted : bool; reason : option string }.

Definition fresh : t := {| aborted := false; reason := None |}.

(** [controller.abort(r)]: a signal that is already aborted keeps its
    reason. *)
Definition abort (r : string) (c : t) : t :=
  if aborted c then c else {| aborted := true; reason := Some r |}.
End AbortController.

(** The closure environment of one [handleOAuthLogin] run past the popup
    check. [listening] says whether [handleMessage] is still registered on
    the window; [timer] holds the delay of the timeout while its callback
    has not run. *)
Record Session := {
  s_provider : string;
  s_login_url : string;
  s_state_token : string;
  popup_closed : bool;
  controller : AbortController.t;
  listening : bool;
  timer : option Z;
}.

(** Calls that leave the component. *)
Inductive Call :=
| api_oAuthLogin (provider : string) (scopes : list string)
| window_open (url : string)
| oAuthCallback (code state : string)
| onSelectCredentials (newValue : option CredentialsMetaInput)
| popup_close (sid : nat).

Record World := {
  isAPICredentialsModalOpen : bool;
  isUserPasswordCredentialsModalOpen : bool;
  isOAuth2FlowInProgress : bool;
  oAuthPopupController : option nat;
  oAuthError : option string;
  sessions : list Session;
  awaitingLogin : list string;
  awaitingCallback : list (nat * string * string);
  calls : list Call;
}.

Definition initial : World :=
  {| isAPICredentialsModalOpen := false;
     isUserPasswordCredentialsModalOpen := false;
     isOAuth2FlowInProgress := false;
     oAuthPopupController := None;
     oAuthError := None;
     sessions := [];
     awaitingLogin := [];
     awaitingCallback := [];
     calls := [] |}.

(** *** Field updates *)

Definition setAPICredentialsModalOpen (b : bool) (w : World) : World :=
  {| isAPICredentialsModalOpen := b;
     isUserPasswordCredentialsModalOpen := isUserPasswordCredentialsModalOpen w;
     isOAuth2FlowInProgress := isOAuth2FlowInProgress w;
     oAuthPopupController := oAuthPopupController w;
     oAuthError := oAuthError w;
     sessions := sessions w;
     awaitingLogin := awaitingLogin w;
     awaitingCallback := awaitingCallback w;
     calls := calls w |}.

Definition setUserPasswordCredentialsModalOpen (b : bool) (w : World) : World :=
  {| isAPICredentialsModalOpen := isAPICredentialsModalOpen w;
     isUserPasswordCredentialsModalOpen := b;
     isOAuth2FlowInProgress := isOAuth2FlowInProgress w;
     oAuthPopupController := oAuthPopupController w;
     oAuthError := oAuthError w;
     sessions := sessions w;
     awaitingLogin := awaitingLogin w;
     awaitingCallback := awaitingCallback w;
     calls := calls w |}.

Definition setOAuth2FlowInProgress (b : bool) (w : World) : World :=
  {| isAPICredentialsModalOpen := isAPICredentialsModalOpen w;
     isUserPasswordCredentialsModalOpen := isUserPasswordCredentialsModalOpen w;
     isOAuth2FlowInProgress := b;
     oAuthPopupController := oAuthPopupController w;
     oAuthError := oAuthError w;
     sessions := sessions w;
     awaitingLogin := awaitingLogin w;
     awaitingCallback := awaitingCallback w;
     calls := calls w |}.

Definition setOAuthPopupController (c : option nat) (w : World) : World :=
  {| isAPICredentialsModalOpen := isAPICredentialsModalOpen w;
     isUserPasswordCredentialsModalOpen := isUserPasswordCredentialsModalOpen w;
     isOAuth2FlowInProgress := isOAuth2FlowInProgress w;
     oAuthPopupController := c;
     oAuthError := oAuthError w;
     sessions := sessions w;
     awaitingLogin := awaitingLogin w;
     awaitingCallback := awaitingCallback w;
     calls := calls w |}.

Definition setOAuthError (e : option string) (w : World) : World :=
  {| isAPICredentialsModalOpen := isAPICredentialsModalOpen w;
     isUserPasswordCredentialsModalOpen := isUserPasswordCredentialsModalOpen w;
     isOAuth2FlowInProgress := isOAuth2FlowInProgress w;
     oAuthPopupController := oAuthPopupController w;
     oAuthError := e;
     sessions := sessions w;
     awaitingLogin := awaitingLogin w;
     awaitingCallback := awaitingCallback w;
     calls := calls w |}.

Definition withSessions (l : list Session) (w : World) : World :=
  {| isAPICredentialsModalOpen := isAPICredentialsModalOpen w;
     isUserPasswordCredentialsModalOpen := isUserPasswordCredentialsModalOpen w;
     isOAuth2FlowInProgress := isOAuth2FlowInProgress w;
     oAuthPopupController := oAuthPopupController w;
     oAuthError := oAuthError w;
     sessions := l;
     awaitingLogin := awaitingLogin w;
     awaitingCallback := awaitingCallback w;
     calls := calls w |}.

Definition withAwaitingLogin (l : list string) (w : World) : World :=
  {| isAPICredentialsModalOpen := isAPICredentialsModalOpen w;
     isUserPasswordCredentialsModalOpen := isUserPasswordCredentialsModalOpen w;
     isOAuth2FlowInProgress := isOAuth2FlowInProgress w;
     oAuthPopupController := oAuthPopupController w;
     oAuthError := oAuthError w;
     sessions := sessions w;
     awaitingLogin := l;
     awaitingCallback := awaitingCallback w;
     calls := calls w |}.

Definition withAwaitingCallback (l : list (nat * string * string)) (w : World)
  : World :=
  {| isAPICredentialsModalOpen := isAPICredentialsModalOpen w;
     isUserPasswordCredentialsModalOpen := isUserPasswordCredentialsModalOpen w;
     isOAuth2FlowInProgress := isOAuth2FlowInProgress w;
     oAuthPopupController := oAuthPopupController w;
     oAuthError := oAuthError w;
     sessions := sessions w;
     awaitingLogin := awaitingLogin w;
     awaitingCallback := l;
     calls := calls w |}.

(** Append one call to the log. *)
Definition perform (c : Call) (w : World) : World :=
  {| isAPICredentialsModalOpen := isAPICredentialsModalOpen w;
     isUserPasswordCredentialsModalOpen := isUserPasswordCredentialsModalOpen w;
     isOAuth2FlowInProgress := isOAuth2FlowInProgress w;
     oAuthPopupController := oAuthPopupController w;
     oAuthError := oAuthError w;
     sessions := sessions w;
     awaitingLogin := awaitingLogin w;
     awaitingCallback := awaitingCallback w;
     calls := calls w ++ [c] |}.

(** ** The OAuth popup coordinator *)

(** [5 * 60 * 1000], the delay given to [setTimeout]. *)
Definition oauthTimeoutMs : Z := 5 * 60 * 1000.

Definition popupBlockedMessage : string :=
  "Failed to open popup window. Please allow popups for this site.".

(** A session whose controller goes from live to aborted with reason [r]:
    the listener registered with [{ signal }] is dropped and [onabort]
    closes the popup.  The timeout is not touched: the handle [setTimeout]
    returns is discarded. *)
Definition tornDown (r : string) (s : Session) : Session :=
  {| s_provider := s_provider s;
     s_login_url := s_login_url s;
     s_state_token := s_state_token s;
     popup_closed := true;
     controller := AbortController.abort r (controller s);
     listening := false;
     timer := timer s |}.

(** [controller.abort(r)] for the controller of session [sid].  Only a
    signal that is not yet aborted fires [onabort]:
    [setOAuth2FlowInProgress(false); popup.close()]. *)
Definition abortSession (sid : nat) (r : string) (w : World) : World :=
  match sessions w !! sid with
  | None => w
  | Some s =>
      if AbortController.aborted (controller s) then w
      else
        perform (popup_close sid)
          (setOAuth2FlowInProgress false
             (withSessions (<[sid := tornDown r s]> (sessions w)) w))
  end.

(** [handleOAuthLogin] up to [await api.oAuthLogin(provider, scopes)]. *)
Definition handleOAuthLogin (prov : string) (scopes : list string) (w : World)
  : World :=
  let w := setOAuthError None w in
  let w := perform (api_oAuthLogin prov scopes) w in
  withAwaitingLogin (awaitingLogin w ++ [prov]) w.

(** The session a successful [handleOAuthLogin] sets up: popup open,
    controller fresh, listener added, timeout pending. *)
Definition newSession (prov : string) (r : LoginResponse) : Session :=
  {| s_provider := prov;
     s_login_url := login_url r;
     s_state_token := state_token r;
     popup_closed := false;
     controller := AbortController.fresh;
     listening := true;
     timer := Some oauthTimeoutMs |}.

(** [handleOAuthLogin] after the [await]. [popup] tells whether
    [window.open] returned a handle. *)
Definition handleOAuthLogin_resume (prov : string)
    (login : Settled LoginResponse) (popup : bool) (w : World)
  : World * Completion :=
  match login with
  | Rejected e => (w, Throws e)
  | Resolved r =>
      let w := setOAuth2FlowInProgress true w in
      let w := perform (window_open (login_url r)) w in
      if negb popup then (w, Throws (ErrorInstance popupBlockedMessage))
      else
        let sid := length (sessions w) in
        let w := withSessions (sessions w ++ [newSession prov r]) w in
        let w := setOAuthPopupController (Some sid) w in
        (w, Returns)
  end.

(** Whether evaluating the guard at the top of [handleMessage] throws.
    On [null] the first test passes ([typeof null] is "object") and the
    second, ["message_type" in e.data], throws a [TypeError]: the
    handler's promise is rejected before anything is written.  On every
    other value the three tests evaluate normally. *)
Definition guardCompletion (data : MessageData) : Completion :=
  match data with
  | NullData => ThrowsTypeError "message_type"
  | _ => Returns
  end.

(** The guard at the top of [handleMessage]: the popup result the handler
    goes on with, if any.  There is none when the guard returns and none
    when it throws (see [guardCompletion]). *)
Definition isPopupResult (data : MessageData) : option PopupResult :=
  match data with
  | NotAnObject => None
  | NullData => None
  | ObjectData None _ => None
  | ObjectData (Some mt) body =>
      if String.eqb mt "oauth_popup_result" then Some body else None
  end.

(** [handleMessage] of session [sid], up to [await oAuthCallback(...)]. *)
Definition handleMessage (sid : nat) (data : MessageData) (w : World) : World :=
  match sessions w !! sid with
  | None => w
  | Some s =>
      match isPopupResult data with
      | None => w
      | Some (Failure message) =>
          let w := setOAuthError (Some ("OAuth flow failed: " +:+ message)) w in
          setOAuth2FlowInProgress false w
      | Some (Success code state) =>
          if negb (String.eqb state (s_state_token s)) then
            let w := setOAuthError (Some "Invalid state token received") w in
            setOAuth2FlowInProgress false w
          else
            let w := perform (oAuthCallback code state) w in
            withAwaitingCallback (awaitingCallback w ++ [(sid, code, state)]) w
      end
  end.

(** [handleMessage] after the [await]: the [try] body or the [catch]
    block, then the [finally] block. *)
Definition handleMessage_resume (sid : nat)
    (r : Settled CredentialsMetaResponse) (w : World) : World :=
  match sessions w !! sid with
  | None => w
  | Some s =>
      let w :=
        match r with
        | Resolved credentials =>
            perform (onSelectCredentials (Some
              {| mi_id := cr_id credentials;
                 mi_type := oauth2;
                 mi_title := cr_title credentials;
                 mi_provider := s_provider s |})) w
        | Rejected error =>
            setOAuthError
              (Some ("Error in OAuth callback: " +:+ rejectionText error)) w
        end in
      let w := setOAuth2FlowInProgress false w in
      abortSession sid "success" w
  end.

(** The callback given to [setTimeout]. *)
Definition timeoutCallback (sid : nat) (w : World) : World :=
  let w := abortSession sid "timeout" w in
  let w := setOAuth2FlowInProgress false w in
  setOAuthError (Some "OAuth flow timed out") w.

(** [onClose] of the waiting modal:
    [oAuthPopupController?.abort("canceled")]. *)
Definition onCloseWaitingModal (w : World) : World :=
  match oAuthPopupController w with
  | None => w
  | Some sid => abortSession sid "canceled" w
  end.

(** ** The environment *)

(** One listener of the window's [message] event: it runs only while it is
    still registered. *)
Definition deliver (data : MessageData) (w : World) (sid : nat) : World :=
  match sessions w !! sid with
  | None => w
  | Some s => if listening s then handleMessage sid data w else w
  end.

(** A [message] event reaches the listeners in the order they were added. *)
Definition dispatchMessage (data : MessageData) (w : World) : World :=
  foldl (deliver data) w (seq 0 (length (sessions w))).

(** A session whose timeout has run. *)
Definition expired (s : Session) : Session :=
  {| s_provider := s_provider s;
     s_login_url := s_login_url s;
     s_state_token := s_state_token s;
     popup_closed := popup_closed s;
     controller := controller s;
     listening := listening s;
     timer := None |}.

(** A pending timeout runs its callback once. *)
Definition fireTimeout (sid : nat) (w : World) : World :=
  match sessions w !! sid with
  | None => w
  | Some s =>
      match timer s with
      | None => w
      | Some _ =>
          timeoutCallback sid (withSessions (<[sid := expired s]> (sessions w)) w)
      end
  end.

(** What can happen to the widget.  Time is left out: a pending timeout may
    fire at any point. *)
Inductive Event :=
| SignIn (prov : string) (scopes : list string)
| LoginSettled (k : nat) (login : Settled LoginResponse) (popup : bool)
| WindowMessage (data : MessageData)
| CallbackSettled (k : nat) (r : Settled CredentialsMetaResponse)
| TimeoutFired (sid : nat)
| WaitingModalDismissed.

Definition step (w : World) (e : Event) : World :=
  match e with
  | SignIn prov scopes => handleOAuthLogin prov scopes w
  | LoginSettled k login popup =>
      match awaitingLogin w !! k with
      | None => w
      | Some prov =>
          fst (handleOAuthLogin_resume prov login popup
                 (withAwaitingLogin (delete k (awaitingLogin w)) w))
      end
  | WindowMessage data => dispatchMessage data w
  | CallbackSettled k r =>
      match awaitingCallback w !! k with
      | None => w
      | Some (sid, _, _) =>
          handleMessage_resume sid r
            (withAwaitingCallback (delete k (awaitingCallback w)) w)
      end
  | TimeoutFired sid => fireTimeout sid w
  | WaitingModalDismissed =>
      (* the dialog can only be dismissed while it is shown *)
      if isOAuth2FlowInProgress w then onCloseWaitingModal w else w
  end.

Definition run (es : list Event) (w : World) : World := foldl step w es.

(** A session counts as active while its controller has not been aborted. *)
Definition active (s : Session) : bool :=
  negb (AbortController.aborted (controller s)).

Definition activeSessions (w : World) : nat :=
  length (filter (fun s => active s = true) (sessions w)).

(** The calls to [onSelectCredentials] in a log, in order. *)
Definition reported (l : list Call) : list (option CredentialsMetaInput) :=
  omap (fun c => match c with onSelectCredentials v => Some v | _ => None end) l.

(** The code-exchange calls in a log, in order. *)
Definition exchanges (l : list Call) : list (string * string) :=
  omap (fun c => match c with oAuthCallback c s => Some (c, s) | _ => None end) l.

(** ** The credential selector *)

(** [singleCredential]: the only saved credential, when there is exactly
    one. *)
Definition singleCredential (credentials : option CredentialsData)
  : option CredentialsMetaResponse :=
  match credentials with
  | Some (Loaded d) =>
      match savedCredentials d with
      | [c] => Some c
      | _ => None
      end
  | _ => None
  end.

(** The first effect: deselect credentials that do not exist. *)
Definition deselectEffect (credentials : option CredentialsData)
    (selectedCredentials : option CredentialsMetaInput) : list Call :=
  match credentials with
  | None | Some Loading => []
  | Some (Loaded d) =>
      match selectedCredentials with
      | None => []
      | Some sel =>
          if negb (existsb (fun c => String.eqb (cr_id c) (mi_id sel))
                     (savedCredentials d))
          then [onSelectCredentials None]
          else []
      end
  end.

(** The second effect: auto-select the only credential. *)
Definition autoSelectEffect (credentials : option CredentialsData)
    (selectedCredentials : option CredentialsMetaInput) : list Call :=
  match singleCredential credentials, selectedCredentials with
  | Some c, None => [onSelectCredentials (Some (asMetaInput c))]
  | _, _ => []
  end.

(** Both effects of one render, in declaration order; they see the same
    props. *)
Definition effects (credentials : option CredentialsData)
    (selectedCredentials : option CredentialsMetaInput) : list Call :=
  deselectEffect credentials selectedCredentials
  ++ autoSelectEffect credentials selectedCredentials.

(** Modelled from the spec: the owner of the component, which is not part
    of this file.  [onSelectCredentials] is the reporting surface towards
    it and [selectedCredentials] its current selection: it keeps the last
    value handed to [onSelectCredentials] and passes it back as
    [selectedCredentials]. *)
Definition ownerSelection (selectedCredentials : option CredentialsMetaInput)
    (l : list Call) : option CredentialsMetaInput :=
  foldl (fun acc c => match c with onSelectCredentials v => v | _ => acc end)
        selectedCredentials l.

Definition savedWithType (ty : CredentialsType) (d : CredentialsProviderData)
  : list CredentialsMetaResponse :=
  List.filter (fun c => CredentialsType_eqb (cr_type c) ty) (savedCredentials d).

(** The [value]s of the [SelectItem]s, in render order. *)
Definition selectItems (d : CredentialsProviderData) : list string :=
  map cr_id (savedWithType oauth2 d)
  ++ map cr_id (savedWithType api_key d)
  ++ map cr_id (savedWithType user_password d)
  ++ (if supportsOAuth2 d then ["sign-in"] else [])
  ++ (if supportsApiKey d then ["add-api-key"] else [])
  ++ (if supportsUserPassword d then ["add-user-password"] else []).

Inductive Button := SignInButton | EnterApiKeyButton | EnterUserPasswordButton.

Definition buttons (d : CredentialsProviderData) : list Button :=
  (if supportsOAuth2 d then [SignInButton] else [])
  ++ (if supportsApiKey d then [EnterApiKeyButton] else [])
  ++ (if supportsUserPassword d then [EnterUserPasswordButton] else []).

Definition isSome {A} (o : option A) : bool :=
  match o with Some _ => true | None => false end.

(** What the component shows: nothing, the buttons (no saved credentials
    yet), or the select. *)
Inductive View :=
| Hidden
| ButtonsView (bs : list Button)
| SelectView (values : list string).

Definition render (credentials : option CredentialsData)
    (hideIfSingleCredentialAvailable : bool) : View :=
  match credentials with
  | None | Some Loading => Hidden
  | Some (Loaded d) =>
      if isSome (singleCredential credentials)
         && hideIfSingleCredentialAvailable
      then Hidden
      else match savedCredentials d with
           | [] => ButtonsView (buttons d)
           | _ => SelectView (selectItems d)
           end
  end.

(** [onClick] of the buttons shown while nothing is saved. *)
Definition onClick (d : CredentialsProviderData) (scopes : list string)
    (b : Button) (w : World) : World :=
  match b with
  | SignInButton => handleOAuthLogin (provider d) scopes w
  | EnterApiKeyButton => setAPICredentialsModalOpen true w
  | EnterUserPasswordButton => setUserPasswordCredentialsModalOpen true w
  end.

(** [handleValueChange]. [find] yields [undefined] when no saved credential
    has the id, and reading [.id] of it throws. *)
Definition handleValueChange (d : CredentialsProviderData)
    (scopes : list string) (newValue : string) (w : World)
  : World * Completion :=
  if String.eqb newValue "sign-in" then
    (handleOAuthLogin (provider d) scopes w, Returns)
  else if String.eqb newValue "add-api-key" then
    (setAPICredentialsModalOpen true w, Returns)
  else
    match List.find (fun c => String.eqb (cr_id c) newValue)
            (savedCredentials d) with
    | None => (w, ThrowsTypeError "id")
    | Some selectedCreds =>
        (perform (onSelectCredentials (Some
           {| mi_id := cr_id selectedCreds;
              mi_type := cr_type selectedCreds;
              mi_title := None;
              mi_provider := provider d |})) w, Returns)
    end.

(** ** A consistency invariant

    In every world the widget can reach, a session's listener is registered
    and its popup open exactly while its controller is not aborted. *)

Definition sessionConsistent (s : Session) : Prop :=
  listening s = negb (AbortController.aborted (controller s))
  /\ popup_closed s = AbortController.aborted (controller s).

Definition consistent (w : World) : Prop :=
  Forall sessionConsistent (sessions w).

(** ** Scenarios *)

(** A login for "github" that got its URL and its popup. *)
Definition loginGithub : list Event :=
  [SignIn "github" ["repo"];
   LoginSettled 0
     (Resolved {| login_url := "https://x"; state_token := "abc" |}) true].

Definition sessionGithub : Session :=
  newSession "github" {| login_url := "https://x"; state_token := "abc" |}.

(** The login followed by the popup's success message and a successful
    code exchange. *)
Definition happyPath : list Event :=
  loginGithub ++
  [WindowMessage (popupMessage (Success "c1" "abc"));
   CallbackSettled 0
     (Resolved {| cr_id := "cred1"; cr_provider := "github";
                  cr_type := oauth2; cr_title := Some "u1";
                  cr_username := None |})].

(** A directory with saved user-password credentials. *)
Definition savedKey : CredentialsMetaResponse :=
  {| cr_id := "k1"; cr_provider := "smtp"; cr_type := user_password;
     cr_title := Some "mail"; cr_username := None |}.

Definition smtpDirectory : CredentialsProviderData :=
  {| provider := "smtp"; providerName := "SMTP";
     supportsApiKey := false; supportsOAuth2 := false;
     supportsUserPassword := true;
     savedCredentials := [savedKey; savedKey] |}.

(** ** Views of a world used by the invariants *)

(** The sessions whose popup was closed by [onabort], in call order. *)
Definition closes (l : list Call) : list nat :=
  omap (fun c => match c with popup_close sid => Some sid | _ => None end) l.

(** [s'] is a later state of the session [s]: what the login fixed is the
    same, an aborted controller has kept its reason, a timeout that has
    run is not pending again, and a removed listener and a closed popup
    stay so. *)
Definition laterOf (s s' : Session) : Prop :=
  s_provider s' = s_provider s
  /\ s_login_url s' = s_login_url s
  /\ s_state_token s' = s_state_token s
  /\ (AbortController.aborted (controller s) = true ->
      controller s' = controller s)
  /\ (timer s = None -> timer s' = None)
  /\ (listening s = false -> listening s' = false)
  /\ (popup_closed s = true -> popup_closed s' = true).

(** Every code exchange in the log carries the state token of a
    session. *)
Definition exchangesUseTokens (w : World) : Prop :=
  forall code state,
    In (code, state) (exchanges (calls w)) ->
    exists sid s, sessions w !! sid = Some s /\ s_state_token s = state.

(** Each report and each pending exchange has an exchange call of its
    own. *)
Definition reportsWithinExchanges (w : World) : Prop :=
  length (reported (calls w)) + length (awaitingCallback w)
  <= length (exchanges (calls w)).

(** 1 for an aborted session, 0 for a live one and for an index without
    session. *)
Definition abortedAt (w : World) (sid : nat) : nat :=
  match sessions w !! sid with
  | Some s => if AbortController.aborted (controller s) then 1 else 0
  | None => 0
  end.

(** [popup.close] has been called once for each aborted session and not
    at all for the others. *)
Definition closedOncePerSession (w : World) : Prop :=
  forall sid,
    count_occ Nat.eq_dec (closes (calls w)) sid = abortedAt w sid.

(** The reasons the file passes to [abort]. *)
Definition abortReasons : list string := ["success"; "timeout"; "canceled"].

Definition sessionWellFormed (s : Session) : Prop :=
  sessionConsistent s
  /\ (if AbortController.aborted (controller s)
      then exists r, AbortController.reason (controller s) = Some r
                     /\ In r abortReasons
      else AbortController.reason (controller s) = None)
  /\ (timer s = None \/ timer s = Some oauthTimeoutMs).

Definition wellFormed (w : World) : Prop :=
  Forall sessionWellFormed (sessions w)
  /\ (forall sid, oAuthPopupController w = Some sid ->
                  sid < length (sessions w))
  /\ (forall sid code state,
        In (sid, code, state) (awaitingCallback w) ->
        exists s, sessions w !! sid = Some s /\ s_state_token s = state).

(** ** Renders and their effects *)

(** One render: the effects run and the owner takes over what they
    passed to [onSelectCredentials]. *)
Definition renderPass (credentials : option CredentialsData)
    (selectedCredentials : option CredentialsMetaInput)
  : option CredentialsMetaInput :=
  ownerSelection selectedCredentials (effects credentials selectedCredentials).

(** Where the selection comes to rest: a selection with a saved id stays,
    otherwise the only saved credential is taken when there is exactly
    one, otherwise nothing is selected.  Without a loaded directory the
    selection is left alone. *)
Definition settledSelection (credentials : option CredentialsData)
    (selectedCredentials : option CredentialsMetaInput)
  : option CredentialsMetaInput :=
  match credentials with
  | Some (Loaded d) =>
      match selectedCredentials with
      | Some sel =>
          if existsb (fun c => String.eqb (cr_id c) (mi_id sel))
               (savedCredentials d)
          then Some sel
          else option_map asMetaInput (singleCredential credentials)
      | None => option_map asMetaInput (singleCredential credentials)
      end
  | _ => selectedCredentials
  end.

(** The [SelectItem]s below the separator. *)
Definition actionItems (d : CredentialsProviderData) : list string :=
  (if supportsOAuth2 d then ["sign-in"] else [])
  ++ (if supportsApiKey d then ["add-api-key"] else [])
  ++ (if supportsUserPassword d then ["add-user-password"] else []).

(** ** The dialogs for new credentials *)

(** [new Date(text).getTime() / 1000], kept symbolic. *)
Inductive Epoch := secondsOfDate (text : string).

(** [z.string().min(1, message)] on one field. *)
Definition minLength1 (field message value : string)
  : list (string * string) :=
  if Nat.ltb (String.length value) 1 then [(field, message)] else [].

Module APIKeyCredentialsModal.
(** The form values; [expiresAt] is optional. *)
Record Values := {
  apiKey : string;
  title : string;
  expiresAt : option string;
}.

Definition defaultValues : Values :=
  {| apiKey := ""; title := ""; expiresAt := Some "" |}.

(** The argument of [createAPIKeyCredentials]. *)
Record Request := {
  req_api_key : string;
  req_title : string;
  req_expires_at : option Epoch;
}.

(** [formSchema]: the messages of the fields that fail. *)
Definition formSchema (v : Values) : list (string * string) :=
  minLength1 "apiKey" "API Key is required" (apiKey v)
  ++ minLength1 "title" "Name is required" (title v).

(** [onSubmit] up to [await createAPIKeyCredentials(...)]: an absent or
    empty [expiresAt] is falsy. *)
Definition onSubmit (v : Values) : Request :=
  {| req_api_key := apiKey v;
     req_title := title v;
     req_expires_at :=
       match expiresAt v with
       | None => None
       | Some text =>
           if String.eqb text "" then None else Some (secondsOfDate text)
       end |}.

(** [form.handleSubmit(onSubmit)]: [onSubmit] runs only on values the
    schema accepts. *)
Definition handleSubmit (v : Values) : option Request :=
  match formSchema v with
  | [] => Some (onSubmit v)
  | _ :: _ => None
  end.

(** [onCredentialsCreate] as the credentials input passes it. *)
Definition onCredentialsCreate (credsMeta : CredentialsMetaInput) (w : World)
  : World :=
  setAPICredentialsModalOpen false
    (perform (onSelectCredentials (Some credsMeta)) w).

(** [onSubmit] after the [await]. *)
Definition onSubmit_resume (d : CredentialsProviderData)
    (r : Settled CredentialsMetaResponse) (w : World) : World * Completion :=
  match r with
  | Rejected e => (w, Throws e)
  | Resolved newCredentials =>
      (onCredentialsCreate
         {| mi_id := cr_id newCredentials;
            mi_type := api_key;
            mi_title := cr_title newCredentials;
            mi_provider := provider d |} w, Returns)
  end.
End APIKeyCredentialsModal.

Module UserPasswordCredentialsModal.
Record Values := {
  username : string;
  password : string;
  title : string;
}.

Definition defaultValues : Values :=
  {| username := ""; password := ""; title := "" |}.

(** [formSchema]: the messages of the fields that fail. *)
Definition formSchema (v : Values) : list (string * string) :=
  minLength1 "username" "Username is required" (username v)
  ++ minLength1 "password" "Password is required" (password v)
  ++ minLength1 "title" "Name is required" (title v).

(** [onSubmit] up to [await createUserPasswordCredentials(...)]: the
    values are passed on as they are. *)
Definition onSubmit (v : Values) : Values :=
  {| username := username v; password := password v; title := title v |}.

Definition handleSubmit (v : Values) : option Values :=
  match formSchema v with
  | [] => Some (onSubmit v)
  | _ :: _ => None
  end.

(** [onCredentialsCreate] as the credentials input passes it. *)
Definition onCredentialsCreate (creds : CredentialsMetaInput) (w : World)
  : World :=
  setUserPasswordCredentialsModalOpen false
    (perform (onSelectCredentials (Some creds)) w).

(** [onSubmit] after the [await]. *)
Definition onSubmit_resume (d : CredentialsProviderData)
    (r : Settled CredentialsMetaResponse) (w : World) : World * Completion :=
  match r with
  | Rejected e => (w, Throws e)
  | Resolved newCredentials =>
      (onCredentialsCreate
         {| mi_id := cr_id newCredentials;
            mi_type := user_password;
            mi_title := cr_title newCredentials;
            mi_provider := provider d |} w, Returns)
  end.
End UserPasswordCredentialsModal.

(** * Properties *)

(** ** The abort controller *)

Section Abort.
Variables (sid : nat) (r : string) (w : World).

Lemma abortSession_live (s : Session) :
  sessions w !! sid = Some s ->
  AbortController.aborted (controller s) = false ->
  abortSession sid r w =
    perform (popup_close sid)
      (setOAuth2FlowInProgress false
         (withSessions (<[sid := tornDown r s]> (sessions w)) w)).
Proof.
  intros Hs Hlive. unfold abortSession. rewrite Hs, Hlive. reflexivity.
Qed.

Lemma abortSession_spent (s : Session) :
  sessions w !! sid = Some s ->
  AbortController.aborted (controller s) = true ->
  abortSession sid r w = w.
Proof.
  intros Hs Hdone. unfold abortSession. rewrite Hs, Hdone. reflexivity.
Qed.

Lemma abortSession_length :
  length (sessions (abortSession sid r w)) = length (sessions w).
Proof.
  unfold abortSession. destruct (sessions w !! sid) as [s|]; [|reflexivity].
  destruct (AbortController.aborted (controller s)); [reflexivity|].
  simpl. apply length_insert.
Qed.

Lemma abortSession_other (j : nat) :
  j <> sid ->
  sessions (abortSession sid r w) !! j = sessions w !! j.
Proof.
  intros Hj. unfold abortSession.
  destruct (sessions w !! sid) as [s|]; [|reflexivity].
  destruct (AbortController.aborted (controller s)); [reflexivity|].
  simpl. apply list_lookup_insert_ne. congruence.
Qed.

(** Whatever the state of the controller, after [abort] it is aborted and
    the timeout is where it was. *)
Lemma abortSession_same (s : Session) :
  sessions w !! sid = Some s ->
  exists s',
    sessions (abortSession sid r w) !! sid = Some s'
    /\ AbortController.aborted (controller s') = true
    /\ timer s' = timer s
    /\ s_state_token s' = s_state_token s.
Proof.
  intros Hs.
  destruct (AbortController.aborted (controller s)) eqn:Hc.
  - exists s. rewrite (abortSession_spent s Hs Hc). auto.
  - exists (tornDown r s). rewrite (abortSession_live s Hs Hc). simpl.
    split.
    + apply list_lookup_insert_eq. eapply lookup_lt_Some; eauto.
    + unfold AbortController.abort. rewrite Hc. auto.
Qed.
End Abort.

(** ** The consistency invariant is kept by every event *)

Lemma tornDown_consistent r s :
  AbortController.aborted (controller s) = false ->
  sessionConsistent (tornDown r s).
Proof.
  intros Hc. unfold sessionConsistent, tornDown, AbortController.abort.
  simpl. rewrite Hc. simpl. auto.
Qed.

Lemma expired_consistent s :
  sessionConsistent s -> sessionConsistent (expired s).
Proof. unfold sessionConsistent. simpl. auto. Qed.

Lemma newSession_consistent prov r : sessionConsistent (newSession prov r).
Proof. unfold sessionConsistent. simpl. auto. Qed.

Lemma abortSession_consistent sid r w :
  consistent w -> consistent (abortSession sid r w).
Proof.
  unfold consistent, abortSession. intros Hw.
  destruct (sessions w !! sid) as [s|] eqn:Hs; [|assumption].
  destruct (AbortController.aborted (controller s)) eqn:Hc; [assumption|].
  simpl. apply Forall_insert; [assumption|].
  now apply tornDown_consistent.
Qed.

(** The synchronous part of [handleMessage] never touches a session. *)
Lemma handleMessage_sessions sid data w :
  sessions (handleMessage sid data w) = sessions w.
Proof.
  unfold handleMessage.
  destruct (sessions w !! sid) as [s|]; [|reflexivity].
  destruct (isPopupResult data) as [[code state|message]|]; try reflexivity.
  destruct (negb (String.eqb state (s_state_token s))); reflexivity.
Qed.

Lemma deliver_sessions data w sid :
  sessions (deliver data w sid) = sessions w.
Proof.
  unfold deliver. destruct (sessions w !! sid) as [s|]; [|reflexivity].
  destruct (listening s); [apply handleMessage_sessions|reflexivity].
Qed.

Lemma foldl_deliver_sessions data (l : list nat) w :
  sessions (foldl (deliver data) w l) = sessions w.
Proof.
  revert w. induction l as [|i l IH]; intros w; simpl; [reflexivity|].
  rewrite IH. apply deliver_sessions.
Qed.

Lemma dispatchMessage_sessions data w :
  sessions (dispatchMessage data w) = sessions w.
Proof. apply foldl_deliver_sessions. Qed.

Lemma handleMessage_resume_consistent sid r w :
  consistent w -> consistent (handleMessage_resume sid r w).
Proof.
  intros Hw. unfold handleMessage_resume.
  destruct (sessions w !! sid) as [s|]; [|assumption].
  apply abortSession_consistent. destruct r; exact Hw.
Qed.

Lemma fireTimeout_consistent sid w :
  consistent w -> consistent (fireTimeout sid w).
Proof.
  intros Hw. unfold fireTimeout.
  destruct (sessions w !! sid) as [s|] eqn:Hs; [|assumption].
  destruct (timer s); [|assumption].
  unfold timeoutCallback.
  change (consistent
    (abortSession sid "timeout"
       (withSessions (<[sid := expired s]> (sessions w)) w))).
  apply abortSession_consistent. unfold consistent. simpl.
  apply Forall_insert; [assumption|].
  apply expired_consistent.
  exact (proj1 (Forall_lookup _ _) Hw sid s Hs).
Qed.

Lemma step_consistent w e : consistent w -> consistent (step w e).
Proof.
  intros Hw. destruct e as [prov scopes|k login popup|data|k r|sid|]; simpl.
  - exact Hw.
  - destruct (awaitingLogin w !! k) as [prov|]; [|assumption].
    destruct login as [resp|err]; simpl; [|assumption].
    destruct popup; simpl; [|assumption].
    unfold consistent. simpl. apply Forall_app. split; [assumption|].
    constructor; [apply newSession_consistent|constructor].
  - unfold consistent. rewrite dispatchMessage_sessions. exact Hw.
  - destruct (awaitingCallback w !! k) as [[[sid code] state]|]; [|assumption].
    apply handleMessage_resume_consistent. exact Hw.
  - now apply fireTimeout_consistent.
  - destruct (isOAuth2FlowInProgress w); [|assumption].
    unfold onCloseWaitingModal.
    destruct (oAuthPopupController w); [|assumption].
    now apply abortSession_consistent.
Qed.

Lemma run_consistent es w : consistent w -> consistent (run es w).
Proof.
  revert w. induction es as [|e es IH]; intros w Hw; simpl; [assumption|].
  apply IH. now apply step_consistent.
Qed.

Lemma initial_consistent : consistent initial.
Proof. constructor. Qed.

(** ** Message validation *)

Lemma isPopupResult_popupMessage r : isPopupResult (popupMessage r) = Some r.
Proof. reflexivity. Qed.

(** C1. A success message whose [state] differs from the session's
    [state_token] makes [handleMessage] set the error text
    "Invalid state token received" (the state-mismatch report) and clear the
    in-progress flag.  Nothing is added to the call log, so neither
    [oAuthCallback] nor [onSelectCredentials] is called, and no code
    exchange is left pending that could report a credential later.  This
    holds for every pair of different strings. *)
Theorem C1_state_mismatch_rejected
    (w : World) (sid : nat) (s : Session) (code state : string) :
  sessions w !! sid = Some s ->
  state <> s_state_token s ->
  let w' := handleMessage sid (popupMessage (Success code state)) w in
  oAuthError w' = Some "Invalid state token received"
  /\ isOAuth2FlowInProgress w' = false
  /\ calls w' = calls w
  /\ exchanges (calls w') = exchanges (calls w)
  /\ reported (calls w') = reported (calls w)
  /\ awaitingCallback w' = awaitingCallback w
  /\ sessions w' = sessions w.
Proof.
  intros Hs Hne w'. subst w'. unfold handleMessage.
  rewrite Hs, isPopupResult_popupMessage.
  apply String.eqb_neq in Hne. rewrite Hne. simpl.
  repeat split; reflexivity.
Qed.

Lemma C1_state_mismatch_rejected_witness :
  let w := run loginGithub initial in
  let w' := handleMessage 0 (popupMessage (Success "c1" "wrong")) w in
  oAuthError w' = Some "Invalid state token received"
  /\ isOAuth2FlowInProgress w' = false
  /\ calls w' = calls w
  /\ exchanges (calls w') = exchanges (calls w)
  /\ reported (calls w') = reported (calls w)
  /\ awaitingCallback w' = awaitingCallback w
  /\ sessions w' = sessions w.
Proof.
  apply (C1_state_mismatch_rejected (run loginGithub initial) 0 sessionGithub
           "c1" "wrong").
  - reflexivity.
  - discriminate.
Defined.

(** ** Remote failure *)

(** What the failure branch of [handleMessage] does, for any session and
    any message text: it sets the error text and clears the in-progress
    flag, and that is all. *)
Lemma handleMessage_failure (w : World) (sid : nat) (s : Session)
    (message : string) :
  sessions w !! sid = Some s ->
  handleMessage sid (popupMessage (Failure message)) w =
    setOAuth2FlowInProgress false
      (setOAuthError (Some ("OAuth flow failed: " +:+ message)) w).
Proof.
  intros Hs. unfold handleMessage.
  rewrite Hs, isPopupResult_popupMessage. reflexivity.
Qed.

(** C3. After a login with state token "abc", the failure message
    [{success: false, message: "access_denied"}] is reported with its text
    and the in-progress flag is cleared, but the controller is never
    aborted: the session is left as it was, with the popup not closed, the
    listener still registered and no abort reason, and [popup.close] is
    not called. *)
Theorem C3_remote_failure_leaves_session_live :
  let w := run loginGithub initial in
  let w' := step w (WindowMessage (popupMessage (Failure "access_denied"))) in
  oAuthError w' = Some "OAuth flow failed: access_denied"
  /\ isOAuth2FlowInProgress w' = false
  /\ sessions w' = [sessionGithub]
  /\ popup_closed sessionGithub = false
  /\ listening sessionGithub = true
  /\ AbortController.reason (controller sessionGithub) = None
  /\ calls w' = calls w.
Proof. repeat split; reflexivity. Qed.

(** ** Code exchange *)

Lemma handleMessage_match (w : World) (sid : nat) (s : Session)
    (code : string) :
  sessions w !! sid = Some s ->
  handleMessage sid (popupMessage (Success code (s_state_token s))) w =
    withAwaitingCallback
      (awaitingCallback w ++ [(sid, code, s_state_token s)])
      (perform (oAuthCallback code (s_state_token s)) w).
Proof.
  intros Hs. unfold handleMessage.
  rewrite Hs, isPopupResult_popupMessage, String.eqb_refl. reflexivity.
Qed.

Lemma lookup_app_length {A} (l : list A) (x : A) :
  (l ++ [x]) !! length l = Some x.
Proof. rewrite lookup_app_r, Nat.sub_diag by lia. reflexivity. Qed.

Lemma delete_app_length {A} (l : list A) (x : A) :
  delete (length l) (l ++ [x]) = l.
Proof.
  induction l as [|y l IH]; simpl; [reflexivity|].
  f_equal. exact IH.
Qed.

(** C7. A success message carrying the session's own state token starts
    the exchange [oAuthCallback(code, state)].  When that call is rejected,
    the error text is "Error in OAuth callback: " followed by the cause
    itself: the [message] of the error when an [Error] was thrown, and
    the value rendered by [String] otherwise.  No credential is reported,
    and the [finally] block still aborts the controller with reason
    "success": the popup is closed, the listener removed and the
    in-progress flag cleared. *)
Theorem C7_exchange_failure_still_cancels
    (w : World) (sid : nat) (s : Session) (code : string) (e : Rejection) :
  sessions w !! sid = Some s ->
  AbortController.aborted (controller s) = false ->
  let w1 := handleMessage sid (popupMessage (Success code (s_state_token s))) w in
  let w2 := step w1 (CallbackSettled (length (awaitingCallback w)) (Rejected e)) in
  calls w1 = calls w ++ [oAuthCallback code (s_state_token s)]
  /\ oAuthError w2 =
       Some ("Error in OAuth callback: " +:+
             match e with
             | ErrorInstance message => message
             | OtherValue rendered => rendered
             end)
  /\ isOAuth2FlowInProgress w2 = false
  /\ sessions w2 !! sid = Some (tornDown "success" s)
  /\ controller (tornDown "success" s) =
       {| AbortController.aborted := true;
          AbortController.reason := Some "success" |}
  /\ popup_closed (tornDown "success" s) = true
  /\ listening (tornDown "success" s) = false
  /\ calls w2 = calls w1 ++ [popup_close sid]
  /\ reported (calls w2) = reported (calls w)
  /\ awaitingCallback w2 = awaitingCallback w.
Proof.
  intros Hs Hlive w1 w2. subst w2 w1.
  rewrite (handleMessage_match w sid s code Hs).
  cbn [step awaitingCallback withAwaitingCallback perform].
  rewrite lookup_app_length, delete_app_length.
  unfold handleMessage_resume. cbn [sessions withAwaitingCallback perform].
  rewrite Hs.
  erewrite abortSession_live; [|exact Hs|exact Hlive].
  cbn.
  assert (Hlt : sid < length (sessions w)) by (eapply lookup_lt_Some; eauto).
  split; [reflexivity|]. split; [destruct e; reflexivity|].
  repeat split.
  - now apply list_lookup_insert_eq.
  - unfold AbortController.abort. rewrite Hlive. reflexivity.
  - unfold reported. rewrite !omap_app. simpl. now rewrite !app_nil_r.
Qed.

Lemma C7_exchange_failure_still_cancels_witness :
  let w := run loginGithub initial in
  let w1 := handleMessage 0 (popupMessage (Success "c1" "abc")) w in
  let w2 := step w1 (CallbackSettled 0 (Rejected (ErrorInstance "bad code"))) in
  let w2' := step w1 (CallbackSettled 0 (Rejected (OtherValue "503"))) in
  oAuthError w2 = Some "Error in OAuth callback: bad code"
  /\ oAuthError w2' = Some "Error in OAuth callback: 503"
  /\ sessions w2 !! 0 = Some (tornDown "success" sessionGithub)
  /\ reported (calls w2) = [].
Proof.
  intros w w1 w2 w2'.
  destruct (C7_exchange_failure_still_cancels (run loginGithub initial) 0
              sessionGithub "c1" (ErrorInstance "bad code")
              eq_refl eq_refl)
    as (_ & Herr & _ & Hsess & _ & _ & _ & _ & Hrep & _).
  destruct (C7_exchange_failure_still_cancels (run loginGithub initial) 0
              sessionGithub "c1" (OtherValue "503")
              eq_refl eq_refl)
    as (_ & Herr' & _).
  split; [exact Herr|]. split; [exact Herr'|].
  split; [exact Hsess|exact Hrep].
Defined.


(** ** Starting a login *)

Lemma handleOAuthLogin_resume_opened prov r w :
  handleOAuthLogin_resume prov (Resolved r) true w =
    (setOAuthPopupController (Some (length (sessions w)))
       (withSessions (sessions w ++ [newSession prov r])
          (perform (window_open (login_url r))
             (setOAuth2FlowInProgress true w))),
     Returns).
Proof. reflexivity. Qed.

Lemma handleOAuthLogin_resume_blocked prov r w :
  handleOAuthLogin_resume prov (Resolved r) false w =
    (perform (window_open (login_url r)) (setOAuth2FlowInProgress true w),
     Throws (ErrorInstance popupBlockedMessage)).
Proof. reflexivity. Qed.

(** C4, as the code has it.  [handleOAuthLogin] has no guard: whenever the
    login request resolves and the popup opens, it adds a session of its
    own (popup, listener, timeout, controller) next to the ones that exist,
    which stay as they are, so the number of active sessions grows by one.
    The widget keeps only the newest controller. *)
Theorem C4_every_login_adds_a_session
    (prov : string) (r : LoginResponse) (w : World) :
  let w' := fst (handleOAuthLogin_resume prov (Resolved r) true w) in
  sessions w' = sessions w ++ [newSession prov r]
  /\ activeSessions w' = S (activeSessions w)
  /\ oAuthPopupController w' = Some (length (sessions w))
  /\ snd (handleOAuthLogin_resume prov (Resolved r) true w) = Returns.
Proof.
  rewrite handleOAuthLogin_resume_opened. cbn [fst snd].
  repeat split. unfold activeSessions. cbn [sessions setOAuthPopupController
    withSessions perform setOAuth2FlowInProgress].
  rewrite filter_app, length_app, filter_cons. simpl. lia.
Qed.

(** C4 fails as stated.  A first login is under way (state token "abc");
    the popup reports a failure, which closes the waiting dialog but
    leaves the session active; the user signs in again.  Now two sessions
    are active at once, each with an open popup, a registered listener and
    a pending timeout, and the first controller is no longer stored.  The
    same happens when the sign-in is triggered twice before either login
    request has been answered. *)
Lemma C4_second_login_runs_concurrently :
  let second :=
    Resolved {| login_url := "https://y"; state_token := "def" |} in
  let w :=
    run (loginGithub ++
         [WindowMessage (popupMessage (Failure "access_denied"))]) initial in
  let w' := run [SignIn "github" ["repo"]; LoginSettled 0 second true] w in
  let w2 :=
    run [SignIn "github" ["repo"]; SignIn "github" ["repo"];
         LoginSettled 0
           (Resolved {| login_url := "https://x"; state_token := "abc" |})
           true;
         LoginSettled 0 second true] initial in
  (activeSessions w = 1
   /\ isOAuth2FlowInProgress w = false
   /\ activeSessions w' = 2
   /\ map listening (sessions w') = [true; true]
   /\ map popup_closed (sessions w') = [false; false]
   /\ map timer (sessions w') = [Some oauthTimeoutMs; Some oauthTimeoutMs]
   /\ oAuthPopupController w' = Some 1
   /\ ~ activeSessions w' <= 1)
  /\ (activeSessions w2 = 2
      /\ map listening (sessions w2) = [true; true]
      /\ map s_state_token (sessions w2) = ["abc"; "def"]
      /\ ~ activeSessions w2 <= 1).
Proof.
  cbv zeta. repeat split; try reflexivity; vm_compute; lia.
Qed.

(** C5. Login for "github" where the API answers but [window.open] yields
    no handle: the promise is rejected with the popup error and no session,
    listener, timeout or controller exists, yet [isOAuth2FlowInProgress] was
    set before the check and stays [true].  With no controller stored,
    dismissing the waiting dialog changes nothing either. *)
Theorem C5_popup_blocked_leaves_flow_in_progress :
  let w0 := withAwaitingLogin [] (run [SignIn "github" ["repo"]] initial) in
  let out :=
    handleOAuthLogin_resume "github"
      (Resolved {| login_url := "https://x"; state_token := "abc" |})
      false w0 in
  let w :=
    run [SignIn "github" ["repo"];
         LoginSettled 0
           (Resolved {| login_url := "https://x"; state_token := "abc" |})
           false] initial in
  snd out = Throws (ErrorInstance popupBlockedMessage)
  /\ fst out = w
  /\ sessions w = []
  /\ oAuthPopupController w = None
  /\ oAuthError w = None
  /\ isOAuth2FlowInProgress w = true
  /\ step w WaitingModalDismissed = w.
Proof. repeat split; reflexivity. Qed.

(** ** Timeout *)

Lemma run_messages_sessions (msgs : list MessageData) (w : World) :
  sessions (run (map WindowMessage msgs) w) = sessions w.
Proof.
  revert w. induction msgs as [|m msgs IH]; intros w; [reflexivity|].
  change (sessions (run (map WindowMessage msgs) (dispatchMessage m w))
          = sessions w).
  rewrite IH. apply dispatchMessage_sessions.
Qed.

Lemma fireTimeout_live (w : World) (sid : nat) (s : Session) (d : Z) :
  sessions w !! sid = Some s ->
  AbortController.aborted (controller s) = false ->
  timer s = Some d ->
  fireTimeout sid w =
    setOAuthError (Some "OAuth flow timed out")
      (setOAuth2FlowInProgress false
         (perform (popup_close sid)
            (setOAuth2FlowInProgress false
               (withSessions
                  (<[sid := tornDown "timeout" (expired s)]> (sessions w))
                  w)))).
Proof.
  intros Hs Hlive Ht. unfold fireTimeout. rewrite Hs, Ht.
  unfold timeoutCallback.
  assert (Hlt : sid < length (sessions w)) by (eapply lookup_lt_Some; eauto).
  erewrite abortSession_live with (s := expired s).
  - cbn [sessions withSessions]. rewrite list_insert_insert_eq. reflexivity.
  - cbn [sessions withSessions]. now apply list_lookup_insert_eq.
  - exact Hlive.
Qed.

(** C6. The session a login sets up carries a timeout of [5 * 60 * 1000]
    milliseconds.  If only window messages arrive before it fires (none of
    them has resolved the session: no exchange has settled), the callback
    aborts the controller with reason "timeout", which closes the popup and
    removes the listener, and sets the error text "OAuth flow timed out". *)
Theorem C6_timeout_cancels_and_reports
    (prov : string) (r : LoginResponse) (w : World)
    (msgs : list MessageData) :
  let sid := length (sessions w) in
  let w1 := fst (handleOAuthLogin_resume prov (Resolved r) true w) in
  let w2 := run (map WindowMessage msgs) w1 in
  let w3 := step w2 (TimeoutFired sid) in
  sessions w1 !! sid = Some (newSession prov r)
  /\ timer (newSession prov r) = Some 300000%Z
  /\ sessions w3 !! sid =
       Some {| s_provider := prov;
               s_login_url := login_url r;
               s_state_token := state_token r;
               popup_closed := true;
               controller :=
                 {| AbortController.aborted := true;
                    AbortController.reason := Some "timeout" |};
               listening := false;
               timer := None |}
  /\ oAuthError w3 = Some "OAuth flow timed out"
  /\ isOAuth2FlowInProgress w3 = false
  /\ calls w3 = calls w2 ++ [popup_close sid].
Proof.
  intros sid w1 w2 w3.
  assert (H1 : sessions w1 !! sid = Some (newSession prov r)).
  { subst w1 sid. rewrite handleOAuthLogin_resume_opened. cbn.
    apply lookup_app_length. }
  assert (H2 : sessions w2 !! sid = Some (newSession prov r)).
  { subst w2. rewrite run_messages_sessions. exact H1. }
  assert (Hlt : sid < length (sessions w2)) by (eapply lookup_lt_Some; eauto).
  subst w3. cbn [step].
  rewrite (fireTimeout_live w2 sid (newSession prov r) oauthTimeoutMs H2
             eq_refl eq_refl).
  cbn. repeat split; try assumption.
  now apply list_lookup_insert_eq.
Qed.

(** ** Teardown *)

Lemma deliver_unregistered data w sid s :
  sessions w !! sid = Some s ->
  listening s = false ->
  deliver data w sid = w.
Proof. intros Hs Hl. unfold deliver. rewrite Hs, Hl. reflexivity. Qed.

Lemma foldl_deliver_idle data w (l : list nat) :
  (forall i, deliver data w i = w) ->
  foldl (deliver data) w l = w.
Proof.
  intros Hidle. induction l as [|i l IH]; simpl; [reflexivity|].
  rewrite Hidle. exact IH.
Qed.

Lemma consistent_lookup w sid s :
  consistent w -> sessions w !! sid = Some s -> sessionConsistent s.
Proof. intros Hw Hs. exact (proj1 (Forall_lookup _ _) Hw sid s Hs). Qed.

Lemma aborted_unregistered w sid s :
  consistent w ->
  sessions w !! sid = Some s ->
  AbortController.aborted (controller s) = true ->
  listening s = false /\ popup_closed s = true.
Proof.
  intros Hw Hs Hc. destruct (consistent_lookup w sid s Hw Hs) as [Hl Hp].
  rewrite Hl, Hp, Hc. auto.
Qed.

Lemma abortSession_tears_down sid r w s :
  consistent w ->
  sessions w !! sid = Some s ->
  exists s',
    sessions (abortSession sid r w) !! sid = Some s'
    /\ AbortController.aborted (controller s') = true
    /\ listening s' = false
    /\ popup_closed s' = true
    /\ timer s' = timer s.
Proof.
  intros Hw Hs.
  destruct (abortSession_same sid r w s Hs) as (s' & Hs' & Hc & Ht & _).
  destruct (aborted_unregistered (abortSession sid r w) sid s'
              (abortSession_consistent sid r w Hw) Hs' Hc) as [Hl Hp].
  exists s'. repeat split; assumption.
Qed.

(** C2, as the code has it.  In every world the widget can reach, a session
    whose controller has been aborted has no listener and a closed popup, so
    a later message, valid or not, does not reach its [handleMessage]; when
    every session is aborted a message changes nothing at all.  The
    controller is aborted when a code exchange settles (resolved or
    rejected), when the timeout callback runs, and when the waiting dialog
    of the stored controller is dismissed.  None of these disarms the
    timeout: it is left as it was, and whenever a pending timeout fires,
    whether or not its session has ended, it clears the in-progress flag
    and sets the error text "OAuth flow timed out". *)
Theorem C2_aborted_session_is_torn_down
    (es : list Event) (sid : nat) (s : Session) :
  let w := run es initial in
  sessions w !! sid = Some s ->
  (AbortController.aborted (controller s) = true ->
     listening s = false /\ popup_closed s = true
     /\ forall data, deliver data w sid = w)
  /\ (Forall (fun s0 => AbortController.aborted (controller s0) = true)
        (sessions w) ->
      forall data, dispatchMessage data w = w)
  /\ (forall w',
        (exists r, w' = handleMessage_resume sid r w)
        \/ w' = timeoutCallback sid w
        \/ (oAuthPopupController w = Some sid /\ w' = onCloseWaitingModal w) ->
        exists s',
          sessions w' !! sid = Some s'
          /\ AbortController.aborted (controller s') = true
          /\ listening s' = false
          /\ popup_closed s' = true
          /\ timer s' = timer s
          /\ forall data, deliver data w' sid = w')
  /\ (forall d,
        timer s = Some d ->
        oAuthError (fireTimeout sid w) = Some "OAuth flow timed out"
        /\ isOAuth2FlowInProgress (fireTimeout sid w) = false).
Proof.
  intros w Hs.
  assert (Hw : consistent w) by (apply run_consistent, initial_consistent).
  split; [|split; [|split]]; cycle 3.
  { intros d Ht. unfold fireTimeout. rewrite Hs, Ht. split; reflexivity. }
  - intros Hc. destruct (aborted_unregistered w sid s Hw Hs Hc) as [Hl Hp].
    repeat split; try assumption.
    intros data. now apply (deliver_unregistered data w sid s).
  - intros Hall data. apply foldl_deliver_idle. intros i. unfold deliver.
    destruct (sessions w !! i) as [si|] eqn:Hi; [|reflexivity].
    pose proof (proj1 (Forall_lookup _ _) Hall i si Hi) as Hc.
    destruct (aborted_unregistered w i si Hw Hi Hc) as [Hl _].
    rewrite Hl. reflexivity.
  - intros w' Hpath.
    assert (Hex : exists w0 r,
               consistent w0 /\ sessions w0 = sessions w
               /\ sessions w' = sessions (abortSession sid r w0)).
    { destruct Hpath as [[r ->]|[->|[Hctl ->]]].
      - unfold handleMessage_resume. rewrite Hs.
        destruct r as [c|e];
          (eexists _, "success"; (split; [|split]);
           [ | |reflexivity]; [exact Hw|reflexivity]).
      - exists w, "timeout". repeat split. exact Hw.
      - unfold onCloseWaitingModal. rewrite Hctl.
        exists w, "canceled". repeat split. exact Hw. }
    destruct Hex as (w0 & r & Hw0 & Heq & Hw').
    assert (Hs0 : sessions w0 !! sid = Some s) by (rewrite Heq; exact Hs).
    destruct (abortSession_tears_down sid r w0 s Hw0 Hs0)
      as (s' & Hs' & Hc & Hl & Hp & Ht).
    exists s'. rewrite Hw'. repeat split; try assumption.
    intros data. apply (deliver_unregistered data w' sid s'); [|exact Hl].
    rewrite Hw'. exact Hs'.
Qed.

Lemma C2_aborted_session_is_torn_down_witness :
  let w := run happyPath initial in
  sessions w !! 0 = Some (tornDown "success" sessionGithub)
  /\ listening (tornDown "success" sessionGithub) = false
  /\ popup_closed (tornDown "success" sessionGithub) = true
  /\ (forall data, deliver data w 0 = w)
  /\ (forall data, dispatchMessage data w = w).
Proof.
  intros w.
  destruct (C2_aborted_session_is_torn_down happyPath 0
              (tornDown "success" sessionGithub) eq_refl)
    as (Hdone & Hall & _ & _).
  destruct (Hdone eq_refl) as (Hl & Hp & Hd).
  split; [reflexivity|].
  split; [exact Hl|]. split; [exact Hp|]. split; [exact Hd|].
  apply Hall. repeat constructor.
Defined.

(** C2 fails as stated.  After the happy path the session is resolved and
    its controller aborted, yet its timeout is still pending; when it fires
    it sets the error text although the login succeeded.  And after a
    remote failure the listener is still registered: a further valid
    success message starts an exchange and the credential is reported. *)
Lemma C2_timeout_outlives_the_session :
  let w := run happyPath initial in
  let wf :=
    run (loginGithub ++
         [WindowMessage (popupMessage (Failure "access_denied"))]) initial in
  let wf' :=
    run [WindowMessage (popupMessage (Success "c1" "abc"));
         CallbackSettled 0
           (Resolved {| cr_id := "cred1"; cr_provider := "github";
                        cr_type := oauth2; cr_title := Some "u1";
                        cr_username := None |})] wf in
  (map (fun s => AbortController.reason (controller s)) (sessions w)
     = [Some "success"]
   /\ map timer (sessions w) = [Some oauthTimeoutMs]
   /\ oAuthError w = None
   /\ oAuthError (step w (TimeoutFired 0)) = Some "OAuth flow timed out")
  /\ (oAuthError wf = Some "OAuth flow failed: access_denied"
      /\ map listening (sessions wf) = [true]
      /\ map popup_closed (sessions wf) = [false]
      /\ map timer (sessions wf) = [Some oauthTimeoutMs]
      /\ reported (calls wf) = []
      /\ reported (calls wf') =
           [Some {| mi_id := "cred1"; mi_type := oauth2;
                    mi_title := Some "u1"; mi_provider := "github" |}]).
Proof. cbv zeta. repeat split; reflexivity. Qed.

(** ** The selector *)

Lemma find_absent {A} (f : A -> bool) (l : list A) :
  (forall x, In x l -> f x = false) -> List.find f l = None.
Proof.
  induction l as [|x l IH]; intros H; simpl; [reflexivity|].
  rewrite (H x (or_introl eq_refl)). apply IH.
  intros y Hy. apply H. now right.
Qed.

Lemma selectItems_user_password d :
  supportsUserPassword d = true -> In "add-user-password" (selectItems d).
Proof.
  intros H. unfold selectItems. rewrite H.
  repeat (apply in_or_app; right). now left.
Qed.

(** C9. For every value other than "sign-in" and "add-api-key",
    [handleValueChange] looks the value up among the saved credential ids
    and reads the fields of what it finds; when nothing is found, that read
    throws.  The select offers the value "add-user-password" whenever
    [supportsUserPassword] holds, and when no saved credential has that id
    choosing it throws and changes nothing: the user-password dialog is not
    opened. *)
Theorem C9_add_user_password_falls_through
    (d : CredentialsProviderData) (scopes : list string)
    (newValue : string) (w : World) :
  newValue <> "sign-in" ->
  newValue <> "add-api-key" ->
  handleValueChange d scopes newValue w =
    match List.find (fun c => String.eqb (cr_id c) newValue)
            (savedCredentials d) with
    | None => (w, ThrowsTypeError "id")
    | Some c =>
        (perform (onSelectCredentials (Some
           {| mi_id := cr_id c; mi_type := cr_type c;
              mi_title := None; mi_provider := provider d |})) w, Returns)
    end
  /\ (supportsUserPassword d = true ->
      forall hide values,
        render (Some (Loaded d)) hide = SelectView values ->
        In "add-user-password" values)
  /\ ((forall c, In c (savedCredentials d) -> cr_id c <> "add-user-password") ->
      handleValueChange d scopes "add-user-password" w
        = (w, ThrowsTypeError "id")
      /\ isUserPasswordCredentialsModalOpen
           (fst (handleValueChange d scopes "add-user-password" w))
         = isUserPasswordCredentialsModalOpen w).
Proof.
  intros Hsign Hkey. split; [|split].
  - unfold handleValueChange.
    apply String.eqb_neq in Hsign. apply String.eqb_neq in Hkey.
    rewrite Hsign, Hkey. reflexivity.
  - intros Hup hide values Hview. unfold render in Hview.
    destruct (isSome (singleCredential (Some (Loaded d))) && hide);
      [discriminate|].
    destruct (savedCredentials d) eqn:Hsaved; [discriminate|].
    injection Hview as <-. now apply selectItems_user_password.
  - intros Hnone.
    assert (Hthrow : handleValueChange d scopes "add-user-password" w
                     = (w, ThrowsTypeError "id")).
    { unfold handleValueChange. cbn [String.eqb Ascii.eqb Bool.eqb].
      rewrite find_absent; [reflexivity|].
      intros c Hc. apply String.eqb_neq. now apply Hnone. }
    rewrite Hthrow. split; reflexivity.
Qed.

Lemma C9_add_user_password_falls_through_witness :
  render (Some (Loaded smtpDirectory)) true
    = SelectView ["k1"; "k1"; "add-user-password"]
  /\ handleValueChange smtpDirectory [] "add-user-password" initial
     = (initial, ThrowsTypeError "id")
  /\ handleValueChange smtpDirectory [] "k1" initial
     = (perform (onSelectCredentials (Some
          {| mi_id := "k1"; mi_type := user_password;
             mi_title := None; mi_provider := "smtp" |})) initial, Returns).
Proof.
  assert (Hn1 : "k1" <> "sign-in") by discriminate.
  assert (Hn2 : "k1" <> "add-api-key") by discriminate.
  destruct (C9_add_user_password_falls_through smtpDirectory [] "k1" initial
              Hn1 Hn2) as (Hfind & _ & Hthrow).
  split; [reflexivity|]. split.
  - apply Hthrow. intros c [<-|[<-|[]]]; discriminate.
  - exact Hfind.
Defined.

(** The buttons shown while nothing is saved do open the dialog. *)
Lemma onClick_EnterUserPassword d scopes w :
  isUserPasswordCredentialsModalOpen
    (onClick d scopes EnterUserPasswordButton w) = true.
Proof. reflexivity. Qed.

(** ** Deselecting credentials that no longer exist *)

Lemma existsb_absent {A} (f : A -> bool) (l : list A) :
  (forall x, In x l -> f x = false) -> existsb f l = false.
Proof.
  induction l as [|x l IH]; intros H; simpl; [reflexivity|].
  rewrite (H x (or_introl eq_refl)). apply IH.
  intros y Hy. apply H. now right.
Qed.

Lemma autoSelectEffect_selected credentials sel :
  autoSelectEffect credentials (Some sel) = [].
Proof.
  unfold autoSelectEffect.
  destruct (singleCredential credentials); reflexivity.
Qed.

(** C10. With the directory loaded: when no saved credential has the id of
    the selected one, the first effect calls [onSelectCredentials] with
    [undefined]; and once the owner has taken over what the effects of the
    render passed to [onSelectCredentials], whatever is still selected has
    the id of a saved credential. *)
Theorem C10_selection_is_saved
    (d : CredentialsProviderData) (selected : option CredentialsMetaInput) :
  let credentials := Some (Loaded d) in
  (forall sel,
     selected = Some sel ->
     (forall c, In c (savedCredentials d) -> cr_id c <> mi_id sel) ->
     deselectEffect credentials selected = [onSelectCredentials None]
     /\ ownerSelection selected (effects credentials selected) = None)
  /\ (forall sel',
        ownerSelection selected (effects credentials selected) = Some sel' ->
        exists c, In c (savedCredentials d) /\ cr_id c = mi_id sel').
Proof.
  intros credentials. subst credentials. split.
  - intros sel -> Hmissing. unfold effects, deselectEffect.
    rewrite autoSelectEffect_selected, existsb_absent.
    + split; reflexivity.
    + intros c Hc. apply String.eqb_neq. now apply Hmissing.
  - intros sel'. unfold effects.
    destruct selected as [sel|].
    + rewrite autoSelectEffect_selected, app_nil_r. unfold deselectEffect.
      destruct (existsb _ _) eqn:Hex; simpl; [|discriminate].
      intros [= <-]. apply existsb_exists in Hex as (c & Hc & Heq).
      apply String.eqb_eq in Heq. eauto.
    + unfold autoSelectEffect, deselectEffect. simpl.
      destruct (savedCredentials d) as [|c [|c' l]]; simpl;
        try discriminate.
      intros [= <-]. exists c. split; [now left|reflexivity].
Qed.

Lemma C10_selection_is_saved_witness :
  deselectEffect (Some (Loaded smtpDirectory))
    (Some {| mi_id := "gone"; mi_type := user_password;
             mi_title := None; mi_provider := "smtp" |})
    = [onSelectCredentials None]
  /\ ownerSelection
       (Some {| mi_id := "gone"; mi_type := user_password;
                mi_title := None; mi_provider := "smtp" |})
       (effects (Some (Loaded smtpDirectory))
          (Some {| mi_id := "gone"; mi_type := user_password;
                   mi_title := None; mi_provider := "smtp" |}))
     = None.
Proof.
  destruct (C10_selection_is_saved smtpDirectory
              (Some {| mi_id := "gone"; mi_type := user_password;
                       mi_title := None; mi_provider := "smtp" |}))
    as (Hdeselect & _).
  apply (Hdeselect _ eq_refl).
  intros c [<-|[<-|[]]]; discriminate.
Defined.

(** While the directory is absent or loading, neither effect calls
    anything. *)
Lemma effects_not_loaded selected :
  effects None selected = [] /\ effects (Some Loading) selected = [].
Proof. destruct selected; split; reflexivity. Qed.

(** * Further properties of the handshake *)

(** ** Messages that are not popup results *)

Lemma isPopupResult_None data :
  (forall body, data <> popupMessage body) -> isPopupResult data = None.
Proof.
  intros Hdata. destruct data as [| |[mt|] body]; try reflexivity.
  unfold isPopupResult. destruct (String.eqb mt "oauth_popup_result") eqn:E;
    [|reflexivity].
  apply String.eqb_eq in E. subst mt. now destruct (Hdata body).
Qed.

Lemma handleMessage_irrelevant sid data w :
  isPopupResult data = None -> handleMessage sid data w = w.
Proof.
  intros H. unfold handleMessage. rewrite H.
  now destruct (sessions w !! sid).
Qed.

(** X1. A window message that is not an object carrying
    [message_type: "oauth_popup_result"] changes nothing, whatever the
    sessions and their state.  For [null] every listener throws a
    [TypeError] at the ["message_type" in e.data] test of its guard; for
    every other such message every listener returns at its guard.  Either
    way nothing has been written by then. *)
Theorem X1_irrelevant_message_ignored (data : MessageData) (w : World) :
  (forall body, data <> popupMessage body) ->
  dispatchMessage data w = w
  /\ (forall sid, handleMessage sid data w = w)
  /\ (data = NullData -> guardCompletion data = ThrowsTypeError "message_type")
  /\ (data <> NullData -> guardCompletion data = Returns).
Proof.
  intros Hdata. split; [|split; [|split]].
  - apply foldl_deliver_idle. intros i. unfold deliver.
    destruct (sessions w !! i) as [s|]; [|reflexivity].
    destruct (listening s); [|reflexivity].
    apply handleMessage_irrelevant. now apply isPopupResult_None.
  - intros sid. apply handleMessage_irrelevant. now apply isPopupResult_None.
  - intros ->. reflexivity.
  - intros Hnull. destruct data; [reflexivity|congruence|reflexivity].
Qed.

Lemma X1_irrelevant_message_ignored_witness :
  dispatchMessage (ObjectData (Some "webpackOk") (Success "c1" "abc"))
    (run loginGithub initial) = run loginGithub initial
  /\ guardCompletion (ObjectData (Some "webpackOk") (Success "c1" "abc"))
     = Returns
  /\ dispatchMessage NullData (run loginGithub initial)
     = run loginGithub initial
  /\ guardCompletion NullData = ThrowsTypeError "message_type".
Proof.
  assert (Hother : forall body,
            ObjectData (Some "webpackOk") (Success "c1" "abc")
            <> popupMessage body) by (intros body; discriminate).
  assert (Hnull : forall body, NullData <> popupMessage body)
    by (intros body; discriminate).
  destruct (X1_irrelevant_message_ignored
              (ObjectData (Some "webpackOk") (Success "c1" "abc"))
              (run loginGithub initial) Hother) as (Hd & _ & _ & Hret).
  destruct (X1_irrelevant_message_ignored NullData
              (run loginGithub initial) Hnull) as (Hd' & _ & Hthrow & _).
  split; [exact Hd|]. split; [apply Hret; discriminate|].
  split; [exact Hd'|apply Hthrow; reflexivity].
Defined.

(** ** A login request that fails *)

(** X2. When [api.oAuthLogin] is rejected, [handleOAuthLogin] rejects with
    the same value after having cleared the error text and called
    nothing but the API: no popup is opened, no session is created, and
    the in-progress flag and the stored controller are as before. *)
Theorem X2_login_request_rejected
    (w : World) (prov : string) (scopes : list string) (e : Rejection)
    (popup : bool) :
  let w1 := step w (SignIn prov scopes) in
  let w2 := step w1 (LoginSettled (length (awaitingLogin w)) (Rejected e) popup) in
  awaitingLogin w1 = awaitingLogin w ++ [prov]
  /\ snd (handleOAuthLogin_resume prov (Rejected e) popup w1) = Throws e
  /\ oAuthError w2 = None
  /\ calls w2 = calls w ++ [api_oAuthLogin prov scopes]
  /\ sessions w2 = sessions w
  /\ isOAuth2FlowInProgress w2 = isOAuth2FlowInProgress w
  /\ oAuthPopupController w2 = oAuthPopupController w
  /\ awaitingLogin w2 = awaitingLogin w.
Proof.
  cbn [step handleOAuthLogin awaitingLogin withAwaitingLogin perform
       setOAuthError].
  rewrite lookup_app_length, delete_app_length.
  repeat split; reflexivity.
Qed.

(** ** Cancelling *)

(** X3. Dismissing the waiting dialog while the stored controller is live
    aborts it with reason "canceled": the popup is closed, the listener
    removed and the in-progress flag cleared.  The error text is left as
    it was, nothing but [popup.close] is called, the timeout stays
    pending and every other session is untouched. *)
Theorem X3_dismiss_cancels_stored_session
    (w : World) (sid : nat) (s : Session) :
  isOAuth2FlowInProgress w = true ->
  oAuthPopupController w = Some sid ->
  sessions w !! sid = Some s ->
  AbortController.aborted (controller s) = false ->
  let w' := step w WaitingModalDismissed in
  sessions w' !! sid = Some (tornDown "canceled" s)
  /\ controller (tornDown "canceled" s) =
       {| AbortController.aborted := true;
          AbortController.reason := Some "canceled" |}
  /\ popup_closed (tornDown "canceled" s) = true
  /\ listening (tornDown "canceled" s) = false
  /\ timer (tornDown "canceled" s) = timer s
  /\ isOAuth2FlowInProgress w' = false
  /\ oAuthError w' = oAuthError w
  /\ calls w' = calls w ++ [popup_close sid]
  /\ (forall j, j <> sid -> sessions w' !! j = sessions w !! j).
Proof.
  intros Hflag Hctl Hs Hlive w'. subst w'.
  cbn [step]. rewrite Hflag. unfold onCloseWaitingModal. rewrite Hctl.
  assert (Hlt : sid < length (sessions w)) by (eapply lookup_lt_Some; eauto).
  repeat split.
  - rewrite (abortSession_live sid "canceled" w s Hs Hlive). cbn.
    now apply list_lookup_insert_eq.
  - cbn. unfold AbortController.abort. now rewrite Hlive.
  - now rewrite (abortSession_live sid "canceled" w s Hs Hlive).
  - now rewrite (abortSession_live sid "canceled" w s Hs Hlive).
  - now rewrite (abortSession_live sid "canceled" w s Hs Hlive).
  - intros j Hj. now apply abortSession_other.
Qed.

Lemma X3_dismiss_cancels_stored_session_witness :
  let w := run loginGithub initial in
  let w' := step w WaitingModalDismissed in
  sessions w' !! 0 = Some (tornDown "canceled" sessionGithub)
  /\ oAuthError w' = None
  /\ calls w' = calls w ++ [popup_close 0].
Proof.
  intros w w'.
  destruct (X3_dismiss_cancels_stored_session (run loginGithub initial) 0
              sessionGithub eq_refl eq_refl eq_refl eq_refl)
    as (Hs & _ & _ & _ & _ & _ & He & Hc & _).
  split; [exact Hs|]. split; [exact He|exact Hc].
Defined.

(** ** A timeout that fires after the session has ended *)

(** X4. When the timeout of a session fires after its controller was
    aborted, the abort is a no-op: the controller keeps its reason and
    [popup.close] is not called again.  Only the error text and the
    in-progress flag are written, and the timeout is gone: firing it once
    more changes nothing. *)
Theorem X4_late_timeout (w : World) (sid : nat) (s : Session) (d : Z) :
  sessions w !! sid = Some s ->
  AbortController.aborted (controller s) = true ->
  timer s = Some d ->
  let w' := step w (TimeoutFired sid) in
  sessions w' = <[sid := expired s]> (sessions w)
  /\ controller (expired s) = controller s
  /\ calls w' = calls w
  /\ oAuthError w' = Some "OAuth flow timed out"
  /\ isOAuth2FlowInProgress w' = false
  /\ step w' (TimeoutFired sid) = w'.
Proof.
  intros Hs Hdone Ht w'. subst w'. cbn [step].
  assert (Hlt : sid < length (sessions w)) by (eapply lookup_lt_Some; eauto).
  assert (Hfire : fireTimeout sid w =
            setOAuthError (Some "OAuth flow timed out")
              (setOAuth2FlowInProgress false
                 (withSessions (<[sid := expired s]> (sessions w)) w))).
  { unfold fireTimeout. rewrite Hs, Ht. unfold timeoutCallback.
    rewrite (abortSession_spent sid "timeout" _ (expired s)); auto.
    cbn. now apply list_lookup_insert_eq. }
  rewrite Hfire. repeat split.
  unfold fireTimeout. cbn [sessions setOAuthError setOAuth2FlowInProgress
    withSessions].
  rewrite list_lookup_insert_eq by exact Hlt. reflexivity.
Qed.

Lemma X4_late_timeout_witness :
  let w := run happyPath initial in
  let w' := step w (TimeoutFired 0) in
  calls w' = calls w
  /\ oAuthError w' = Some "OAuth flow timed out"
  /\ step w' (TimeoutFired 0) = w'.
Proof.
  intros w w'.
  destruct (X4_late_timeout (run happyPath initial) 0
              (tornDown "success" sessionGithub) oauthTimeoutMs
              eq_refl eq_refl eq_refl)
    as (_ & _ & Hc & He & _ & Hagain).
  split; [exact Hc|]. split; [exact He|exact Hagain].
Defined.

(** ** What [abort] leaves alone *)

Lemma abortSession_calls sid r w :
  calls (abortSession sid r w) = calls w
  \/ calls (abortSession sid r w) = calls w ++ [popup_close sid].
Proof.
  unfold abortSession. destruct (sessions w !! sid) as [s|]; [|now left].
  destruct (AbortController.aborted (controller s)); [now left|now right].
Qed.

Lemma abortSession_reported sid r w :
  reported (calls (abortSession sid r w)) = reported (calls w).
Proof.
  destruct (abortSession_calls sid r w) as [->| ->]; [reflexivity|].
  unfold reported. rewrite omap_app. simpl. apply app_nil_r.
Qed.

Lemma abortSession_exchanges sid r w :
  exchanges (calls (abortSession sid r w)) = exchanges (calls w).
Proof.
  destruct (abortSession_calls sid r w) as [->| ->]; [reflexivity|].
  unfold exchanges. rewrite omap_app. simpl. apply app_nil_r.
Qed.

Lemma abortSession_frame sid r w :
  awaitingCallback (abortSession sid r w) = awaitingCallback w
  /\ awaitingLogin (abortSession sid r w) = awaitingLogin w
  /\ oAuthError (abortSession sid r w) = oAuthError w
  /\ oAuthPopupController (abortSession sid r w) = oAuthPopupController w.
Proof.
  unfold abortSession. destruct (sessions w !! sid) as [s|]; [|auto].
  destruct (AbortController.aborted (controller s)); auto.
Qed.

Lemma abortSession_identity sid r w j s :
  sessions w !! j = Some s ->
  exists s',
    sessions (abortSession sid r w) !! j = Some s'
    /\ s_provider s' = s_provider s
    /\ s_login_url s' = s_login_url s
    /\ s_state_token s' = s_state_token s
    /\ timer s' = timer s
    /\ (AbortController.aborted (controller s) = true ->
        controller s' = controller s)
    /\ (listening s = false -> listening s' = false)
    /\ (popup_closed s = true -> popup_closed s' = true).
Proof.
  intros Hj. destruct (decide (j = sid)) as [->|Hne].
  - destruct (AbortController.aborted (controller s)) eqn:Hc.
    + exists s. rewrite (abortSession_spent sid r w s Hj Hc).
      repeat split; auto.
    + exists (tornDown r s). rewrite (abortSession_live sid r w s Hj Hc).
      cbn. split; [|repeat split; try (intros Hc'; congruence)].
      apply list_lookup_insert_eq. eapply lookup_lt_Some; eauto.
  - exists s. rewrite abortSession_other by exact Hne. repeat split; auto.
Qed.

Lemma handleMessage_resume_resolved w sid s c :
  sessions w !! sid = Some s ->
  let w' := handleMessage_resume sid (Resolved c) w in
  reported (calls w') =
    reported (calls w) ++
    [Some {| mi_id := cr_id c; mi_type := oauth2;
             mi_title := cr_title c; mi_provider := s_provider s |}]
  /\ exchanges (calls w') = exchanges (calls w)
  /\ awaitingCallback w' = awaitingCallback w
  /\ oAuthError w' = oAuthError w
  /\ exists s', sessions w' !! sid = Some s'
                /\ s_provider s' = s_provider s
                /\ AbortController.aborted (controller s') = true.
Proof.
  intros Hs w'. subst w'. unfold handleMessage_resume. rewrite Hs.
  set (w1 := setOAuth2FlowInProgress false (perform _ w)).
  assert (Hs1 : sessions w1 !! sid = Some s) by exact Hs.
  rewrite abortSession_reported, abortSession_exchanges.
  destruct (abortSession_frame sid "success" w1) as (-> & _ & -> & _).
  destruct (abortSession_same sid "success" w1 s Hs1) as (s' & Hs' & Hc & _).
  destruct (abortSession_identity sid "success" w1 sid s Hs1)
    as (s'' & Hs'' & Hp & _).
  rewrite Hs' in Hs''. injection Hs'' as <-.
  subst w1. cbn [calls perform setOAuth2FlowInProgress awaitingCallback
    oAuthError].
  unfold reported, exchanges. rewrite !omap_app. simpl. rewrite app_nil_r.
  repeat split. exists s'. auto.
Qed.

(** X5. Once an exchange resolves, its credential is reported with the
    id and title of the response, type [oauth2] and the provider the login
    was started for, whether or not the session has been cancelled or has
    timed out in the meantime.  The error text is left as it is.  A live
    controller is aborted with reason "success"; one that is already
    aborted is left alone and [popup.close] is not called again. *)
Theorem X5_settled_exchange_always_reports
    (w : World) (sid : nat) (s : Session) (c : CredentialsMetaResponse) :
  sessions w !! sid = Some s ->
  let w' := handleMessage_resume sid (Resolved c) w in
  let cred := {| mi_id := cr_id c; mi_type := oauth2;
                 mi_title := cr_title c; mi_provider := s_provider s |} in
  reported (calls w') = reported (calls w) ++ [Some cred]
  /\ oAuthError w' = oAuthError w
  /\ isOAuth2FlowInProgress w' = false
  /\ (AbortController.aborted (controller s) = false ->
      sessions w' !! sid = Some (tornDown "success" s)
      /\ calls w' = calls w ++ [onSelectCredentials (Some cred);
                                popup_close sid])
  /\ (AbortController.aborted (controller s) = true ->
      sessions w' = sessions w
      /\ calls w' = calls w ++ [onSelectCredentials (Some cred)]).
Proof.
  intros Hs w' cred.
  destruct (handleMessage_resume_resolved w sid s c Hs)
    as (Hrep & _ & _ & Herr & _).
  split; [exact Hrep|]. split; [exact Herr|].
  subst w'. unfold handleMessage_resume. rewrite Hs.
  set (w1 := setOAuth2FlowInProgress false (perform _ w)).
  assert (Hs1 : sessions w1 !! sid = Some s) by exact Hs.
  assert (Hlt : sid < length (sessions w)) by (eapply lookup_lt_Some; eauto).
  split; [|split].
  - unfold abortSession. rewrite Hs1.
    destruct (AbortController.aborted (controller s)); reflexivity.
  - intros Hlive. rewrite (abortSession_live sid "success" w1 s Hs1 Hlive).
    cbn. split; [now apply list_lookup_insert_eq|].
    now rewrite <- app_assoc.
  - intros Hdone. rewrite (abortSession_spent sid "success" w1 s Hs1 Hdone).
    split; reflexivity.
Qed.

Lemma X5_settled_exchange_always_reports_witness :
  let timedOut :=
    run (loginGithub ++
         [WindowMessage (popupMessage (Success "c1" "abc"));
          TimeoutFired 0]) initial in
  let w' :=
    handleMessage_resume 0
      (Resolved {| cr_id := "cred1"; cr_provider := "github";
                   cr_type := oauth2; cr_title := Some "u1";
                   cr_username := None |}) timedOut in
  reported (calls w') =
    [Some {| mi_id := "cred1"; mi_type := oauth2;
             mi_title := Some "u1"; mi_provider := "github" |}]
  /\ oAuthError w' = Some "OAuth flow timed out"
  /\ sessions w' = sessions timedOut.
Proof.
  intros timedOut w'.
  destruct (X5_settled_exchange_always_reports timedOut 0
              (tornDown "timeout" (expired sessionGithub))
              {| cr_id := "cred1"; cr_provider := "github";
                 cr_type := oauth2; cr_title := Some "u1";
                 cr_username := None |} eq_refl)
    as (Hrep & Herr & _ & _ & Hdone).
  split; [exact Hrep|]. split; [exact Herr|].
  exact (proj1 (Hdone eq_refl)).
Defined.

(** ** Repeated success messages *)




(** ** Sessions only move forward *)

Lemma laterOf_refl s : laterOf s s.
Proof. unfold laterOf. repeat split; auto. Qed.

Lemma laterOf_trans s1 s2 s3 : laterOf s1 s2 -> laterOf s2 s3 -> laterOf s1 s3.
Proof.
  intros (Hp & Hu & Ht & Hc & Hti & Hl & Hpc)
         (Hp' & Hu' & Ht' & Hc' & Hti' & Hl' & Hpc').
  unfold laterOf. repeat split; try congruence; auto.
  intros Ha. rewrite <- (Hc Ha). apply Hc'. now rewrite (Hc Ha).
Qed.

Lemma expired_laterOf s : laterOf s (expired s).
Proof. unfold laterOf. repeat split; auto. Qed.

Lemma abortSession_later sid r w j s :
  sessions w !! j = Some s ->
  exists s', sessions (abortSession sid r w) !! j = Some s' /\ laterOf s s'.
Proof.
  intros Hj.
  destruct (abortSession_identity sid r w j s Hj)
    as (s' & Hs' & Hp & Hu & Ht & Hti & Hc & Hl & Hpc).
  exists s'. split; [exact Hs'|]. unfold laterOf.
  repeat split; auto. intros Hn. now rewrite Hti.
Qed.

Lemma handleMessage_resume_sessions sid r w :
  sessions (handleMessage_resume sid r w)
  = sessions (abortSession sid "success" w).
Proof.
  unfold handleMessage_resume, abortSession.
  destruct (sessions w !! sid) as [s|] eqn:Hs; [|reflexivity].
  destruct r; cbn [sessions setOAuth2FlowInProgress perform setOAuthError];
    rewrite Hs; destruct (AbortController.aborted (controller s));
    reflexivity.
Qed.

Lemma fireTimeout_later sid w j s :
  sessions w !! j = Some s ->
  exists s', sessions (fireTimeout sid w) !! j = Some s' /\ laterOf s s'.
Proof.
  intros Hj. unfold fireTimeout.
  destruct (sessions w !! sid) as [s0|] eqn:Hs0;
    [|exists s; split; [exact Hj|apply laterOf_refl]].
  destruct (timer s0);
    [|exists s; split; [exact Hj|apply laterOf_refl]].
  set (w1 := withSessions (<[sid := expired s0]> (sessions w)) w).
  assert (Hex : exists s1, sessions w1 !! j = Some s1 /\ laterOf s s1).
  { destruct (decide (j = sid)) as [->|Hne].
    - exists (expired s0). split.
      + cbn. apply list_lookup_insert_eq. eapply lookup_lt_Some; eauto.
      + assert (s = s0) by congruence. subst. apply expired_laterOf.
    - exists s. split; [|apply laterOf_refl].
      cbn. rewrite list_lookup_insert_ne by congruence. exact Hj. }
  destruct Hex as (s1 & Hs1 & Hl1).
  destruct (abortSession_later sid "timeout" w1 j s1 Hs1) as (s' & Hs' & Hl').
  exists s'. split; [exact Hs'|]. eapply laterOf_trans; eauto.
Qed.

Lemma step_later w e j s :
  sessions w !! j = Some s ->
  exists s', sessions (step w e) !! j = Some s' /\ laterOf s s'.
Proof.
  intros Hj.
  assert (Hsame : forall w', sessions w' = sessions w ->
            exists s', sessions w' !! j = Some s' /\ laterOf s s').
  { intros w' ->. exists s. split; [exact Hj|apply laterOf_refl]. }
  destruct e as [prov scopes|k login popup|data|k r|sid|]; cbn [step].
  - now apply Hsame.
  - destruct (awaitingLogin w !! k) as [prov|]; [|now apply Hsame].
    destruct login as [resp|err]; [|now apply Hsame].
    destruct popup; [|now apply Hsame].
    exists s. split; [|apply laterOf_refl].
    cbn. now apply lookup_app_l_Some.
  - apply Hsame, dispatchMessage_sessions.
  - destruct (awaitingCallback w !! k) as [[[sid code] state]|];
      [|now apply Hsame].
    rewrite handleMessage_resume_sessions.
    now apply abortSession_later.
  - now apply fireTimeout_later.
  - destruct (isOAuth2FlowInProgress w); [|now apply Hsame].
    unfold onCloseWaitingModal.
    destruct (oAuthPopupController w); [|now apply Hsame].
    now apply abortSession_later.
Qed.

(** X7. Whatever happens to the widget, a session stays in place with the
    provider, login URL and state token it was created with; once its
    controller is aborted the reason is never overwritten, the listener
    is never registered again and the popup stays closed; and a timeout
    that has run never becomes pending again. *)
Theorem X7_sessions_only_move_forward
    (es : list Event) (w : World) (j : nat) (s : Session) :
  sessions w !! j = Some s ->
  exists s',
    sessions (run es w) !! j = Some s'
    /\ s_provider s' = s_provider s
    /\ s_login_url s' = s_login_url s
    /\ s_state_token s' = s_state_token s
    /\ (AbortController.aborted (controller s) = true ->
        controller s' = controller s)
    /\ (timer s = None -> timer s' = None)
    /\ (listening s = false -> listening s' = false)
    /\ (popup_closed s = true -> popup_closed s' = true).
Proof.
  intros Hj.
  assert (H : exists s', sessions (run es w) !! j = Some s' /\ laterOf s s').
  { revert w s Hj. induction es as [|e es IH]; intros w s Hj.
    - exists s. split; [exact Hj|apply laterOf_refl].
    - destruct (step_later w e j s Hj) as (s1 & Hs1 & Hl1).
      destruct (IH (step w e) s1 Hs1) as (s' & Hs' & Hl').
      exists s'. split; [exact Hs'|]. eapply laterOf_trans; eauto. }
  destruct H as (s' & Hs' & Hl). exists s'. split; [exact Hs'|exact Hl].
Qed.

Lemma X7_sessions_only_move_forward_witness :
  exists s',
    sessions (run [TimeoutFired 0; WaitingModalDismissed;
                   WindowMessage (popupMessage (Success "c1" "abc"))]
                (run happyPath initial)) !! 0 = Some s'
    /\ s_state_token s' = "abc"
    /\ AbortController.reason (controller s') = Some "success".
Proof.
  destruct (X7_sessions_only_move_forward
              [TimeoutFired 0; WaitingModalDismissed;
               WindowMessage (popupMessage (Success "c1" "abc"))]
              (run happyPath initial) 0 (tornDown "success" sessionGithub)
              eq_refl)
    as (s' & Hs' & _ & _ & Ht & Hc & _).
  exists s'. split; [exact Hs'|]. split; [exact Ht|].
  now rewrite (Hc eq_refl).
Defined.

(** ** What each step adds to the log *)

Ltac log_simpl :=
  unfold reported, exchanges, closes;
  rewrite ?omap_app; simpl; rewrite ?app_nil_r.

Lemma handleMessage_cases sid data w :
  (calls (handleMessage sid data w) = calls w
   /\ awaitingCallback (handleMessage sid data w) = awaitingCallback w)
  \/ (exists s code,
        sessions w !! sid = Some s
        /\ calls (handleMessage sid data w)
           = calls w ++ [oAuthCallback code (s_state_token s)]
        /\ awaitingCallback (handleMessage sid data w)
           = awaitingCallback w ++ [(sid, code, s_state_token s)]).
Proof.
  unfold handleMessage.
  destruct (sessions w !! sid) as [s|] eqn:Hs; [|now left].
  destruct (isPopupResult data) as [[code state|message]|]; try now left.
  destruct (String.eqb state (s_state_token s)) eqn:E; simpl; [|now left].
  apply String.eqb_eq in E. subst state.
  right. exists s, code. repeat split.
Qed.

Lemma handleMessage_controller sid data w :
  oAuthPopupController (handleMessage sid data w) = oAuthPopupController w.
Proof.
  unfold handleMessage.
  destruct (sessions w !! sid) as [s|]; [|reflexivity].
  destruct (isPopupResult data) as [[code state|message]|]; try reflexivity.
  destruct (negb (String.eqb state (s_state_token s))); reflexivity.
Qed.

Lemma deliver_cases data w sid :
  (calls (deliver data w sid) = calls w
   /\ awaitingCallback (deliver data w sid) = awaitingCallback w)
  \/ (exists s code,
        sessions w !! sid = Some s
        /\ calls (deliver data w sid)
           = calls w ++ [oAuthCallback code (s_state_token s)]
        /\ awaitingCallback (deliver data w sid)
           = awaitingCallback w ++ [(sid, code, s_state_token s)]).
Proof.
  unfold deliver. destruct (sessions w !! sid) as [s|] eqn:Hs; [|now left].
  destruct (listening s); [|now left].
  destruct (handleMessage_cases sid data w) as [H|(s' & code & Hs' & H)];
    [now left|].
  right. exists s', code. split; [congruence|exact H].
Qed.

Lemma deliver_controller data w sid :
  oAuthPopupController (deliver data w sid) = oAuthPopupController w.
Proof.
  unfold deliver. destruct (sessions w !! sid) as [s|]; [|reflexivity].
  destruct (listening s); [apply handleMessage_controller|reflexivity].
Qed.

(** An invariant of the listeners is an invariant of a dispatch. *)
Lemma dispatchMessage_ind (P : World -> Prop) data :
  (forall w i, P w -> P (deliver data w i)) ->
  forall w, P w -> P (dispatchMessage data w).
Proof.
  intros Hstep w. unfold dispatchMessage.
  generalize (seq 0 (length (sessions w))). intros l. revert w.
  induction l as [|i l IH]; intros w Hw; simpl; [exact Hw|].
  apply IH, Hstep, Hw.
Qed.

Lemma handleMessage_resume_log sid r w :
  exchanges (calls (handleMessage_resume sid r w)) = exchanges (calls w)
  /\ awaitingCallback (handleMessage_resume sid r w) = awaitingCallback w
  /\ oAuthPopupController (handleMessage_resume sid r w)
     = oAuthPopupController w
  /\ length (reported (calls (handleMessage_resume sid r w)))
     <= S (length (reported (calls w)))
  /\ closes (calls (handleMessage_resume sid r w))
     = closes (calls (abortSession sid "success" w)).
Proof.
  unfold handleMessage_resume.
  destruct (sessions w !! sid) as [s|] eqn:Hs.
  - destruct r as [c|e];
      (set (w1 := setOAuth2FlowInProgress false _);
       rewrite abortSession_exchanges, abortSession_reported;
       destruct (abortSession_frame sid "success" w1) as (-> & _ & _ & ->);
       assert (Hcl : closes (calls (abortSession sid "success" w1))
                     = closes (calls (abortSession sid "success" w)))
         by (unfold abortSession;
             change (sessions w1) with (sessions w); rewrite Hs;
             destruct (AbortController.aborted (controller s));
             subst w1; cbn; log_simpl; reflexivity);
       subst w1; cbn; repeat split; try exact Hcl; log_simpl;
       rewrite ?length_app; simpl; first [reflexivity|lia]).
  - unfold abortSession. rewrite Hs. repeat split. lia.
Qed.

Lemma fireTimeout_log sid w :
  exchanges (calls (fireTimeout sid w)) = exchanges (calls w)
  /\ reported (calls (fireTimeout sid w)) = reported (calls w)
  /\ awaitingCallback (fireTimeout sid w) = awaitingCallback w
  /\ oAuthPopupController (fireTimeout sid w) = oAuthPopupController w.
Proof.
  unfold fireTimeout. destruct (sessions w !! sid) as [s|]; [|auto].
  destruct (timer s); [|auto].
  unfold timeoutCallback.
  cbn [calls setOAuthError setOAuth2FlowInProgress awaitingCallback
       oAuthPopupController].
  rewrite abortSession_exchanges, abortSession_reported.
  set (w1 := withSessions _ w).
  destruct (abortSession_frame sid "timeout" w1) as (-> & _ & _ & ->).
  auto.
Qed.

(** ** Exchanges and state tokens *)

Lemma exchangesUseTokens_later w w' :
  exchangesUseTokens w ->
  exchanges (calls w') = exchanges (calls w) ->
  (forall j s, sessions w !! j = Some s ->
     exists s', sessions w' !! j = Some s' /\ laterOf s s') ->
  exchangesUseTokens w'.
Proof.
  intros Hw Hex Hlater code state Hin. rewrite Hex in Hin.
  destruct (Hw code state Hin) as (sid & s & Hs & Ht).
  destruct (Hlater sid s Hs) as (s' & Hs' & Hl).
  exists sid, s'. split; [exact Hs'|].
  destruct Hl as (_ & _ & Htok & _). congruence.
Qed.

Lemma step_exchanges w e :
  (forall data, e <> WindowMessage data) ->
  exchanges (calls (step w e)) = exchanges (calls w).
Proof.
  intros Hne.
  destruct e as [prov scopes|k login popup|data|k r|sid|]; cbn [step].
  - cbn. now log_simpl.
  - destruct (awaitingLogin w !! k) as [prov|]; [|reflexivity].
    destruct login as [resp|err]; [|reflexivity].
    destruct popup; cbn; now log_simpl.
  - now destruct (Hne data).
  - destruct (awaitingCallback w !! k) as [[[sid code] state]|];
      [|reflexivity].
    now destruct (handleMessage_resume_log sid r
                    (withAwaitingCallback (delete k (awaitingCallback w)) w))
      as (-> & _).
  - now destruct (fireTimeout_log sid w) as (-> & _).
  - destruct (isOAuth2FlowInProgress w); [|reflexivity].
    unfold onCloseWaitingModal.
    destruct (oAuthPopupController w); [|reflexivity].
    apply abortSession_exchanges.
Qed.

Lemma deliver_exchangesUseTokens data w i :
  exchangesUseTokens w -> exchangesUseTokens (deliver data w i).
Proof.
  intros Hw code state Hin. rewrite deliver_sessions.
  destruct (deliver_cases data w i) as [[Hc _]|(s & c & Hs & Hc & _)];
    rewrite Hc in Hin.
  - exact (Hw code state Hin).
  - unfold exchanges in Hin. rewrite omap_app in Hin. simpl in Hin.
    apply in_app_or in Hin as [Hin|[Heq|[]]].
    + exact (Hw code state Hin).
    + injection Heq as <- <-. now exists i, s.
Qed.

Lemma step_exchangesUseTokens w e :
  exchangesUseTokens w -> exchangesUseTokens (step w e).
Proof.
  intros Hw.
  destruct (match e with WindowMessage _ => true | _ => false end) eqn:He.
  - destruct e; try discriminate. cbn [step].
    apply dispatchMessage_ind; [|exact Hw].
    intros w0 i. apply deliver_exchangesUseTokens.
  - apply (exchangesUseTokens_later w); [exact Hw| |].
    + apply step_exchanges. intros data ->. discriminate.
    + intros j s. apply step_later.
Qed.

(** X8. In every world the widget can reach, each call of the code
    exchange carries a state equal to the state token of one of the
    widget's own sessions: [oAuthCallback] is never called with a state
    the backend did not issue to this widget. *)
Theorem X8_exchange_state_is_a_session_token
    (es : list Event) (code state : string) :
  In (code, state) (exchanges (calls (run es initial))) ->
  exists sid s,
    sessions (run es initial) !! sid = Some s /\ s_state_token s = state.
Proof.
  assert (H : forall w, exchangesUseTokens w -> exchangesUseTokens (run es w)).
  { induction es as [|e es IH]; intros w Hw; [exact Hw|].
    apply IH, step_exchangesUseTokens, Hw. }
  apply H. intros c st [].
Qed.

Lemma X8_exchange_state_is_a_session_token_witness :
  exists sid s,
    sessions (run happyPath initial) !! sid = Some s
    /\ s_state_token s = "abc".
Proof.
  apply (X8_exchange_state_is_a_session_token happyPath "c1" "abc").
  vm_compute. now left.
Defined.

(** ** Reports and exchanges *)

Lemma deliver_reportsWithinExchanges data w i :
  reportsWithinExchanges w -> reportsWithinExchanges (deliver data w i).
Proof.
  unfold reportsWithinExchanges. intros Hw.
  destruct (deliver_cases data w i) as [[-> ->]|(s & c & _ & -> & ->)];
    [exact Hw|].
  revert Hw. log_simpl. rewrite !length_app. simpl. lia.
Qed.

Lemma step_reportsWithinExchanges w e :
  reportsWithinExchanges w -> reportsWithinExchanges (step w e).
Proof.
  unfold reportsWithinExchanges. intros Hw.
  destruct e as [prov scopes|k login popup|data|k r|sid|]; cbn [step].
  - cbn. revert Hw. now log_simpl.
  - destruct (awaitingLogin w !! k) as [prov|]; [|exact Hw].
    destruct login as [resp|err]; [|exact Hw].
    destruct popup; cbn; revert Hw; now log_simpl.
  - apply (dispatchMessage_ind reportsWithinExchanges); [|exact Hw].
    intros w0 i. apply deliver_reportsWithinExchanges.
  - destruct (awaitingCallback w !! k) as [[[sid code] state]|] eqn:Hk;
      [|exact Hw].
    set (w1 := withAwaitingCallback (delete k (awaitingCallback w)) w).
    destruct (handleMessage_resume_log sid r w1) as (-> & -> & _ & Hr & _).
    assert (Hlen : length (awaitingCallback w)
                   = S (length (delete k (awaitingCallback w)))).
    { rewrite length_delete by (rewrite Hk; eauto).
      apply lookup_lt_Some in Hk. lia. }
    subst w1.
    cbn [calls awaitingCallback withAwaitingCallback] in *. lia.
  - destruct (fireTimeout_log sid w) as (-> & -> & -> & _). exact Hw.
  - destruct (isOAuth2FlowInProgress w); [|exact Hw].
    unfold onCloseWaitingModal.
    destruct (oAuthPopupController w) as [sid|]; [|exact Hw].
    rewrite abortSession_exchanges, abortSession_reported.
    now destruct (abortSession_frame sid "canceled" w) as (-> & _).
Qed.

(** X9. In every world the widget can reach, the credentials reported so
    far plus the exchanges still pending never outnumber the calls of the
    code exchange: the handshake reports nothing without an exchange of
    its own. *)
Theorem X9_no_report_without_exchange (es : list Event) :
  let w := run es initial in
  length (reported (calls w)) + length (awaitingCallback w)
  <= length (exchanges (calls w)).
Proof.
  assert (H : forall w, reportsWithinExchanges w ->
                        reportsWithinExchanges (run es w)).
  { induction es as [|e es IH]; intros w Hw; [exact Hw|].
    apply IH, step_reportsWithinExchanges, Hw. }
  apply H. unfold reportsWithinExchanges. simpl. lia.
Qed.

(** ** The popup is closed once *)

Lemma closedOnce_same w w' :
  closes (calls w') = closes (calls w) ->
  (forall j, abortedAt w' j = abortedAt w j) ->
  closedOncePerSession w -> closedOncePerSession w'.
Proof. intros Hc Ha Hw j. rewrite Hc, Ha. apply Hw. Qed.

Lemma abortSession_closedOnce sid r w :
  closedOncePerSession w -> closedOncePerSession (abortSession sid r w).
Proof.
  intros Hw. unfold abortSession.
  destruct (sessions w !! sid) as [s|] eqn:Hs; [|exact Hw].
  destruct (AbortController.aborted (controller s)) eqn:Hc; [exact Hw|].
  assert (Hlt : sid < length (sessions w)) by (eapply lookup_lt_Some; eauto).
  intros j. cbn [calls perform setOAuth2FlowInProgress withSessions].
  unfold closes. rewrite omap_app. simpl. rewrite count_occ_app. simpl.
  fold (closes (calls w)). rewrite (Hw j). unfold abortedAt.
  cbn [sessions perform setOAuth2FlowInProgress withSessions].
  destruct (Nat.eq_dec sid j) as [<-|Hne].
  - rewrite list_lookup_insert_eq by exact Hlt. rewrite Hs, Hc.
    cbn. unfold AbortController.abort. rewrite Hc. reflexivity.
  - rewrite list_lookup_insert_ne by exact Hne. lia.
Qed.

Lemma step_closedOnce w e :
  closedOncePerSession w -> closedOncePerSession (step w e).
Proof.
  intros Hw.
  destruct e as [prov scopes|k login popup|data|k r|sid|]; cbn [step].
  - apply (closedOnce_same w); [cbn; now log_simpl|reflexivity|exact Hw].
  - destruct (awaitingLogin w !! k) as [prov|]; [|exact Hw].
    destruct login as [resp|err]; [|exact Hw].
    destruct popup; cbn [fst handleOAuthLogin_resume negb].
    + apply (closedOnce_same w); [cbn; now log_simpl| |exact Hw].
      intros j. unfold abortedAt. cbn.
      destruct (decide (j < length (sessions w))) as [Hlt|Hge].
      * now rewrite lookup_app_l.
      * rewrite lookup_app_r by lia.
        rewrite (lookup_ge_None_2 (sessions w) j) by lia.
        destruct (j - length (sessions w)) as [|n]; reflexivity.
    + apply (closedOnce_same w); [cbn; now log_simpl|reflexivity|exact Hw].
  - apply (dispatchMessage_ind closedOncePerSession); [|exact Hw].
    intros w0 i Hw0. apply (closedOnce_same w0); [| |exact Hw0].
    + destruct (deliver_cases data w0 i) as [[-> _]|(s & c & _ & -> & _)];
        [reflexivity|now log_simpl].
    + intros j. unfold abortedAt. now rewrite deliver_sessions.
  - destruct (awaitingCallback w !! k) as [[[sid code] state]|]; [|exact Hw].
    set (w1 := withAwaitingCallback (delete k (awaitingCallback w)) w).
    apply (closedOnce_same (abortSession sid "success" w1)).
    + now destruct (handleMessage_resume_log sid r w1) as (_ & _ & _ & _ & ->).
    + intros j. unfold abortedAt. now rewrite handleMessage_resume_sessions.
    + apply abortSession_closedOnce. exact Hw.
  - unfold fireTimeout. destruct (sessions w !! sid) as [s|] eqn:Hs;
      [|exact Hw].
    destruct (timer s); [|exact Hw].
    set (w1 := withSessions (<[sid := expired s]> (sessions w)) w).
    apply (closedOnce_same (abortSession sid "timeout" w1));
      [reflexivity|reflexivity|].
    apply abortSession_closedOnce.
    apply (closedOnce_same w); [reflexivity| |exact Hw].
    intros j. unfold abortedAt. subst w1. cbn.
    destruct (decide (j = sid)) as [->|Hne].
    + rewrite list_lookup_insert_eq by (eapply lookup_lt_Some; eauto).
      now rewrite Hs.
    + now rewrite list_lookup_insert_ne by congruence.
  - destruct (isOAuth2FlowInProgress w); [|exact Hw].
    unfold onCloseWaitingModal.
    destruct (oAuthPopupController w); [|exact Hw].
    now apply abortSession_closedOnce.
Qed.

(** X10. In every world the widget can reach, [popup.close] has been
    called exactly once for each session whose controller is aborted and
    never for a session that is still live or for a popup that does not
    exist, however often [abort] was called. *)
Theorem X10_popup_closed_exactly_once (es : list Event) (sid : nat) :
  let w := run es initial in
  count_occ Nat.eq_dec (closes (calls w)) sid =
    match sessions w !! sid with
    | Some s => if AbortController.aborted (controller s) then 1 else 0
    | None => 0
    end.
Proof.
  assert (H : forall w, closedOncePerSession w ->
                        closedOncePerSession (run es w)).
  { induction es as [|e es IH]; intros w Hw; [exact Hw|].
    apply IH, step_closedOnce, Hw. }
  apply (H initial). intros j. reflexivity.
Qed.

(** ** Well-formed worlds *)

Lemma wellFormed_same w w' :
  sessions w' = sessions w ->
  oAuthPopupController w' = oAuthPopupController w ->
  awaitingCallback w' = awaitingCallback w ->
  wellFormed w -> wellFormed w'.
Proof. unfold wellFormed. intros -> -> ->. auto. Qed.

Lemma tornDown_wellFormed r s :
  In r abortReasons ->
  AbortController.aborted (controller s) = false ->
  sessionWellFormed s -> sessionWellFormed (tornDown r s).
Proof.
  intros Hr Hlive (_ & _ & Ht). split; [now apply tornDown_consistent|].
  cbn. unfold AbortController.abort. rewrite Hlive. cbn.
  split; [now exists r|exact Ht].
Qed.

Lemma expired_wellFormed s : sessionWellFormed s -> sessionWellFormed (expired s).
Proof.
  intros (Hc & Hr & _). split; [now apply expired_consistent|].
  split; [exact Hr|now left].
Qed.

Lemma abortSession_wellFormed sid r w :
  In r abortReasons -> wellFormed w -> wellFormed (abortSession sid r w).
Proof.
  intros Hr (Hall & Hctl & Hpend).
  destruct (abortSession_frame sid r w) as (Haw & _ & _ & Hc).
  split; [|split].
  - unfold abortSession.
    destruct (sessions w !! sid) as [s|] eqn:Hs; [|exact Hall].
    destruct (AbortController.aborted (controller s)) eqn:Hlive;
      [exact Hall|].
    cbn. apply Forall_insert; [exact Hall|].
    apply tornDown_wellFormed; auto.
    exact (proj1 (Forall_lookup _ _) Hall sid s Hs).
  - intros j. rewrite Hc, abortSession_length. apply Hctl.
  - intros j code state. rewrite Haw. intros Hin.
    destruct (Hpend j code state Hin) as (s & Hs & Ht).
    destruct (abortSession_identity sid r w j s Hs) as (s' & Hs' & _ & _ & Ht' & _).
    exists s'. split; [exact Hs'|congruence].
Qed.

Lemma deliver_wellFormed data w i : wellFormed w -> wellFormed (deliver data w i).
Proof.
  intros (Hall & Hctl & Hpend). split; [|split].
  - now rewrite deliver_sessions.
  - rewrite deliver_sessions, deliver_controller. exact Hctl.
  - intros j code state. rewrite deliver_sessions.
    destruct (deliver_cases data w i) as [[_ ->]|(s & c & Hs & _ & ->)];
      [apply (Hpend j code state)|].
    intros Hin. apply in_app_or in Hin as [Hin|[Heq|[]]].
    + exact (Hpend j code state Hin).
    + injection Heq as <- <- <-. now exists s.
Qed.

Lemma In_delete {A} (k : nat) (l : list A) (x : A) :
  In x (delete k l) -> In x l.
Proof.
  revert k. induction l as [|y l IH]; intros k; [now destruct k|].
  destruct k as [|k]; simpl; [now right|].
  intros [->|Hin]; [now left|right; eauto].
Qed.

Lemma step_wellFormed w e : wellFormed w -> wellFormed (step w e).
Proof.
  intros Hw.
  destruct e as [prov scopes|k login popup|data|k r|sid|]; cbn [step].
  - now apply (wellFormed_same w).
  - destruct (awaitingLogin w !! k) as [prov|]; [|exact Hw].
    destruct login as [resp|err]; [|now apply (wellFormed_same w)].
    destruct popup; [|now apply (wellFormed_same w)].
    destruct Hw as (Hall & Hctl & Hpend). split; [|split]; cbn.
    + apply Forall_app. split; [exact Hall|].
      constructor; [|constructor].
      split; [apply newSession_consistent|]. cbn. split; [reflexivity|now right].
    + intros j [= <-]. rewrite length_app. simpl. lia.
    + intros j code state Hin.
      destruct (Hpend j code state Hin) as (s & Hs & Ht).
      exists s. split; [now apply lookup_app_l_Some|exact Ht].
  - apply (dispatchMessage_ind wellFormed); [|exact Hw].
    intros w0 i. apply deliver_wellFormed.
  - destruct (awaitingCallback w !! k) as [[[sid code] state]|]; [|exact Hw].
    set (w1 := withAwaitingCallback (delete k (awaitingCallback w)) w).
    assert (Hw1 : wellFormed w1).
    { destruct Hw as (Hall & Hctl & Hpend). split; [|split]; auto.
      intros j c st Hin. apply (Hpend j c st). now apply In_delete in Hin. }
    destruct (handleMessage_resume_log sid r w1) as (_ & Haw & Hc & _).
    apply (wellFormed_same (abortSession sid "success" w1)).
    + apply handleMessage_resume_sessions.
    + rewrite Hc. now destruct (abortSession_frame sid "success" w1) as (_ & _ & _ & ->).
    + rewrite Haw. now destruct (abortSession_frame sid "success" w1) as (-> & _).
    + apply abortSession_wellFormed; [now left|exact Hw1].
  - unfold fireTimeout. destruct (sessions w !! sid) as [s|] eqn:Hs;
      [|exact Hw].
    destruct (timer s); [|exact Hw].
    set (w1 := withSessions (<[sid := expired s]> (sessions w)) w).
    apply (wellFormed_same (abortSession sid "timeout" w1));
      [reflexivity|reflexivity|reflexivity|].
    apply abortSession_wellFormed; [right; now left|].
    destruct Hw as (Hall & Hctl & Hpend). split; [|split]; subst w1; cbn.
    + apply Forall_insert; [exact Hall|]. apply expired_wellFormed.
      exact (proj1 (Forall_lookup _ _) Hall sid s Hs).
    + intros j Hj. rewrite length_insert. now apply Hctl.
    + intros j code state Hin.
      destruct (Hpend j code state Hin) as (s0 & Hs0 & Ht).
      destruct (decide (j = sid)) as [->|Hne].
      * exists (expired s). split.
        -- apply list_lookup_insert_eq. eapply lookup_lt_Some; eauto.
        -- cbn. congruence.
      * exists s0. split; [|exact Ht].
        now rewrite list_lookup_insert_ne by congruence.
  - destruct (isOAuth2FlowInProgress w); [|exact Hw].
    unfold onCloseWaitingModal.
    destruct (oAuthPopupController w); [|exact Hw].
    apply abortSession_wellFormed; [right; right; now left|exact Hw].
Qed.

(** X11. In every world the widget can reach: a session's listener is
    registered exactly while its controller is not aborted and its popup
    is closed exactly when it is; an aborted controller carries one of
    the reasons "success", "timeout" and "canceled" and a live one none;
    a timeout is either gone or pending with the five-minute delay; the
    stored controller belongs to an existing session; and every pending
    exchange was started by an existing session with that session's
    state token. *)
Theorem X11_reachable_worlds_are_well_formed (es : list Event) :
  let w := run es initial in
  (forall sid s,
     sessions w !! sid = Some s ->
     listening s = negb (AbortController.aborted (controller s))
     /\ popup_closed s = AbortController.aborted (controller s)
     /\ (if AbortController.aborted (controller s)
         then exists r, AbortController.reason (controller s) = Some r
                        /\ In r ["success"; "timeout"; "canceled"]
         else AbortController.reason (controller s) = None)
     /\ (timer s = None \/ timer s = Some 300000%Z))
  /\ (forall sid, oAuthPopupController w = Some sid ->
                  sid < length (sessions w))
  /\ (forall sid code state,
        In (sid, code, state) (awaitingCallback w) ->
        exists s, sessions w !! sid = Some s /\ s_state_token s = state).
Proof.
  assert (H : forall w, wellFormed w -> wellFormed (run es w)).
  { induction es as [|e es IH]; intros w Hw; [exact Hw|].
    apply IH, step_wellFormed, Hw. }
  assert (Hi : wellFormed initial).
  { split; [constructor|]. split; [discriminate|intros ? ? ? []]. }
  destruct (H initial Hi) as (Hall & Hctl & Hpend).
  split; [|split; [exact Hctl|exact Hpend]].
  intros sid s Hs.
  destruct (proj1 (Forall_lookup _ _) Hall sid s Hs) as ((Hl & Hp) & Hr & Ht).
  repeat split; assumption.
Qed.

Lemma X11_reachable_worlds_are_well_formed_witness :
  let w := run (happyPath ++ [SignIn "github" ["repo"]]) initial in
  exists s, sessions w !! 0 = Some s
            /\ listening s = false
            /\ timer s = Some 300000%Z.
Proof.
  intros w.
  destruct (X11_reachable_worlds_are_well_formed
              (happyPath ++ [SignIn "github" ["repo"]])) as (Hs & Hctl & _).
  assert (Hlt := Hctl 0 eq_refl).
  destruct (Hs 0 (tornDown "success" sessionGithub) eq_refl)
    as (Hl & _ & _ & Ht).
  exists (tornDown "success" sessionGithub).
  split; [reflexivity|]. split; [exact Hl|reflexivity].
Defined.

(** ** A success message heard by several sessions *)

Lemma deliver_mismatch data w i :
  oAuthError w = Some "Invalid state token received" ->
  isOAuth2FlowInProgress w = false ->
  (exists c st, data = popupMessage (Success c st)) ->
  oAuthError (deliver data w i) = Some "Invalid state token received"
  /\ isOAuth2FlowInProgress (deliver data w i) = false.
Proof.
  intros He Hf (c & st & ->). unfold deliver.
  destruct (sessions w !! i) as [s|] eqn:Hs; [|auto].
  destruct (listening s); [|auto].
  unfold handleMessage. rewrite Hs, isPopupResult_popupMessage.
  destruct (negb (String.eqb st (s_state_token s))); auto.
Qed.

Lemma foldl_deliver_mismatch c st (l : list nat) w :
  (oAuthError w = Some "Invalid state token received"
   /\ isOAuth2FlowInProgress w = false)
  \/ (exists i s, In i l /\ sessions w !! i = Some s /\ listening s = true
                  /\ st <> s_state_token s) ->
  oAuthError (foldl (deliver (popupMessage (Success c st))) w l)
    = Some "Invalid state token received"
  /\ isOAuth2FlowInProgress
       (foldl (deliver (popupMessage (Success c st))) w l) = false.
Proof.
  revert w. induction l as [|j l IH]; intros w H; simpl.
  - destruct H as [H|(i & s & [] & _)]. exact H.
  - apply IH. destruct H as [[He Hf]|(i & s & [<-|Hin] & Hs & Hl & Hne)].
    + left. apply deliver_mismatch; eauto.
    + left. unfold deliver. rewrite Hs, Hl. unfold handleMessage.
      rewrite Hs, isPopupResult_popupMessage.
      apply String.eqb_neq in Hne. rewrite Hne. auto.
    + right. exists i, s. rewrite deliver_sessions. auto.
Qed.

(** X12. Every registered listener hears every message.  So when a
    success message arrives while some session with a different state
    token is still listening, the widget shows "Invalid state token
    received" and clears the in-progress flag, even if the message belongs
    to another of its sessions, whose exchange is started all the same. *)
Theorem X12_success_message_for_another_session
    (w : World) (sid : nat) (s : Session) (code state : string) :
  sessions w !! sid = Some s ->
  listening s = true ->
  state <> s_state_token s ->
  let w' := dispatchMessage (popupMessage (Success code state)) w in
  oAuthError w' = Some "Invalid state token received"
  /\ isOAuth2FlowInProgress w' = false
  /\ sessions w' = sessions w.
Proof.
  intros Hs Hl Hne w'. subst w'.
  split; [|split]; [| |apply dispatchMessage_sessions];
    apply foldl_deliver_mismatch; right; exists sid, s;
    (split; [|auto]);
    apply in_seq; apply lookup_lt_Some in Hs; lia.
Qed.

Lemma X12_success_message_for_another_session_witness :
  let w :=
    run (loginGithub ++
         [SignIn "github" ["repo"];
          LoginSettled 0
            (Resolved {| login_url := "https://y"; state_token := "def" |})
            true]) initial in
  let w' := dispatchMessage (popupMessage (Success "c2" "def")) w in
  oAuthError w' = Some "Invalid state token received"
  /\ exchanges (calls w') = [("c2", "def")].
Proof.
  intros w w'.
  destruct (X12_success_message_for_another_session w 0 sessionGithub
              "c2" "def" eq_refl eq_refl) as (He & _).
  - discriminate.
  - split; [exact He|reflexivity].
Defined.

(** ** The select *)

Lemma find_present {A} (f : A -> bool) (l : list A) (x : A) :
  In x l -> f x = true ->
  exists y, List.find f l = Some y /\ In y l /\ f y = true.
Proof.
  induction l as [|z l IH]; intros Hin Hx; [destruct Hin|].
  simpl. destruct (f z) eqn:Hz.
  - exists z. split; [reflexivity|]. split; [now left|exact Hz].
  - destruct Hin as [->|Hin]; [congruence|].
    destruct (IH Hin Hx) as (y & Hy & Hiny & Hfy).
    exists y. split; [exact Hy|]. split; [now right|exact Hfy].
Qed.

Lemma selectItems_split d :
  selectItems d =
    map cr_id (savedWithType oauth2 d ++ savedWithType api_key d
               ++ savedWithType user_password d)
    ++ actionItems d.
Proof.
  unfold selectItems, actionItems. rewrite !map_app, <- !app_assoc.
  reflexivity.
Qed.

Lemma savedWithType_In ty d c :
  In c (savedWithType ty d) -> In c (savedCredentials d).
Proof. unfold savedWithType. intros H. now apply filter_In in H. Qed.

Lemma selectItems_In d v :
  In v (selectItems d) ->
  (exists c, In c (savedCredentials d) /\ cr_id c = v)
  \/ v = "sign-in" \/ v = "add-api-key" \/ v = "add-user-password".
Proof.
  rewrite selectItems_split. intros Hin.
  apply in_app_or in Hin as [Hin|Hin].
  - left. apply in_map_iff in Hin as (c & Hc & Hin). exists c.
    split; [|exact Hc].
    apply in_app_or in Hin as [Hin|Hin];
      [|apply in_app_or in Hin as [Hin|Hin]];
      eapply savedWithType_In; eauto.
  - right. unfold actionItems in Hin.
    destruct (supportsOAuth2 d), (supportsApiKey d),
      (supportsUserPassword d); simpl in Hin; intuition.
Qed.

(** X13. Every value the select offers, other than "add-user-password",
    is handled without an exception.  A value that is neither "sign-in"
    nor "add-api-key" selects a saved credential with that id: its type,
    the directory's provider and no title are passed to
    [onSelectCredentials]. *)
Theorem X13_offered_values_are_handled
    (d : CredentialsProviderData) (scopes : list string) (v : string)
    (w : World) :
  In v (selectItems d) ->
  v <> "add-user-password" ->
  snd (handleValueChange d scopes v w) = Returns
  /\ (v <> "sign-in" -> v <> "add-api-key" ->
      exists c,
        In c (savedCredentials d) /\ cr_id c = v
        /\ fst (handleValueChange d scopes v w) =
             perform (onSelectCredentials (Some
               {| mi_id := v; mi_type := cr_type c;
                  mi_title := None; mi_provider := provider d |})) w).
Proof.
  intros Hin Hnup. unfold handleValueChange.
  destruct (String.eqb v "sign-in") eqn:E1;
    [apply String.eqb_eq in E1; split; [reflexivity|congruence]|].
  destruct (String.eqb v "add-api-key") eqn:E2;
    [apply String.eqb_eq in E2; split; [reflexivity|congruence]|].
  apply String.eqb_neq in E1. apply String.eqb_neq in E2.
  destruct (selectItems_In d v Hin) as [(c & Hc & Hid)|[?|[?|?]]];
    try congruence.
  destruct (find_present (fun c => String.eqb (cr_id c) v)
              (savedCredentials d) c Hc) as (y & -> & Hy & Hfy).
  { apply String.eqb_eq. exact Hid. }
  apply String.eqb_eq in Hfy. split; [reflexivity|].
  intros _ _. exists y. rewrite Hfy. auto.
Qed.

Lemma X13_offered_values_are_handled_witness :
  snd (handleValueChange smtpDirectory [] "k1" initial) = Returns.
Proof.
  apply (X13_offered_values_are_handled smtpDirectory [] "k1" initial).
  - simpl. now left.
  - discriminate.
Defined.



(** ** Renders settle *)

Lemma effects_valid d sel :
  existsb (fun c => String.eqb (cr_id c) (mi_id sel)) (savedCredentials d)
    = true ->
  effects (Some (Loaded d)) (Some sel) = [].
Proof.
  intros H. unfold effects. rewrite autoSelectEffect_selected.
  unfold deselectEffect. rewrite H. reflexivity.
Qed.

Lemma single_valid d c :
  savedCredentials d = [c] ->
  existsb (fun c0 => String.eqb (cr_id c0) (mi_id (asMetaInput c)))
    (savedCredentials d) = true.
Proof.
  intros ->. simpl. now rewrite String.eqb_refl.
Qed.

(** X15. The two effects cannot keep a render loop going.  From any
    selection, two renders reach a selection on which the effects call
    nothing more: a selection with a saved id is kept; otherwise the only
    saved credential is selected when there is exactly one, and nothing
    when there are none or several. *)
Theorem X15_effects_settle_within_two_renders
    (credentials : option CredentialsData)
    (selected : option CredentialsMetaInput) :
  renderPass credentials (renderPass credentials selected)
    = settledSelection credentials selected
  /\ effects credentials (settledSelection credentials selected) = []
  /\ renderPass credentials (settledSelection credentials selected)
     = settledSelection credentials selected.
Proof.
  assert (Hfix : forall sel, effects credentials sel = [] ->
                             renderPass credentials sel = sel).
  { intros sel H. unfold renderPass. now rewrite H. }
  destruct credentials as [[|d]|].
  - destruct selected; repeat split.
  - unfold settledSelection.
    destruct selected as [sel|].
    + destruct (existsb _ _) eqn:Hv.
      * pose proof (effects_valid d sel Hv) as He.
        rewrite !(Hfix _ He). auto.
      * assert (H1 : renderPass (Some (Loaded d)) (Some sel) = None).
        { unfold renderPass, effects, deselectEffect.
          rewrite autoSelectEffect_selected, Hv. reflexivity. }
        rewrite H1.
        destruct (savedCredentials d) as [|c [|c' l]] eqn:Hsaved;
          unfold renderPass, effects, deselectEffect, autoSelectEffect,
            singleCredential; rewrite ?Hsaved; simpl;
            rewrite ?String.eqb_refl; repeat split.
    + destruct (savedCredentials d) as [|c [|c' l]] eqn:Hsaved;
        unfold renderPass, effects, deselectEffect, autoSelectEffect,
          singleCredential; rewrite ?Hsaved; simpl;
          rewrite ?String.eqb_refl; repeat split.
  - destruct selected; repeat split.
Qed.

(** ** The dialogs for new credentials *)

(** X16. The API-key dialog calls the backend only when both the key and
    the name are non-empty, with the key and the name as typed and no
    expiry when the date field is absent or empty.  When the backend
    answers, the credential reported has the id and title of the answer,
    type [api_key] and the directory's provider, and the dialog opened by
    the button is closed; when the backend fails nothing is reported and
    the dialog stays open. *)
Theorem X16_api_key_dialog
    (v : APIKeyCredentialsModal.Values) (d : CredentialsProviderData)
    (scopes : list string) (w : World) :
  let opened := onClick d scopes EnterApiKeyButton w in
  (APIKeyCredentialsModal.handleSubmit v = None <->
   APIKeyCredentialsModal.apiKey v = ""
   \/ APIKeyCredentialsModal.title v = "")
  /\ (forall rq,
        APIKeyCredentialsModal.handleSubmit v = Some rq ->
        APIKeyCredentialsModal.req_api_key rq = APIKeyCredentialsModal.apiKey v
        /\ APIKeyCredentialsModal.req_title rq = APIKeyCredentialsModal.title v
        /\ (APIKeyCredentialsModal.req_expires_at rq = None <->
            APIKeyCredentialsModal.expiresAt v = None
            \/ APIKeyCredentialsModal.expiresAt v = Some ""))
  /\ (forall c,
        let w' := fst (APIKeyCredentialsModal.onSubmit_resume d
                         (Resolved c) opened) in
        isAPICredentialsModalOpen opened = true
        /\ isAPICredentialsModalOpen w' = false
        /\ calls w' = calls w ++ [onSelectCredentials (Some
             {| mi_id := cr_id c; mi_type := api_key;
                mi_title := cr_title c; mi_provider := provider d |})])
  /\ (forall e,
        APIKeyCredentialsModal.onSubmit_resume d (Rejected e) opened
        = (opened, Throws e)).
Proof.
  intros opened. split; [|split; [|split]].
  - unfold APIKeyCredentialsModal.handleSubmit,
      APIKeyCredentialsModal.formSchema.
    destruct (APIKeyCredentialsModal.apiKey v) as [|a k];
      destruct (APIKeyCredentialsModal.title v) as [|b t]; simpl;
      split; auto; try discriminate; intros [H|H]; discriminate.
  - intros rq. unfold APIKeyCredentialsModal.handleSubmit.
    destruct (APIKeyCredentialsModal.formSchema v); [|discriminate].
    intros [= <-]. simpl. split; [reflexivity|]. split; [reflexivity|].
    destruct (APIKeyCredentialsModal.expiresAt v) as [text|].
    + destruct (String.eqb text "") eqn:E.
      * apply String.eqb_eq in E. subst. split; auto.
      * apply String.eqb_neq in E.
        split; [discriminate|intros [H|H]; congruence].
    + split; auto.
  - intros c w'. repeat split.
  - reflexivity.
Qed.

Lemma X16_api_key_dialog_witness :
  APIKeyCredentialsModal.handleSubmit APIKeyCredentialsModal.defaultValues
    = None
  /\ APIKeyCredentialsModal.handleSubmit
       {| APIKeyCredentialsModal.apiKey := "sk-1";
          APIKeyCredentialsModal.title := "mine";
          APIKeyCredentialsModal.expiresAt := Some "" |}
     = Some {| APIKeyCredentialsModal.req_api_key := "sk-1";
               APIKeyCredentialsModal.req_title := "mine";
               APIKeyCredentialsModal.req_expires_at := None |}.
Proof.
  destruct (X16_api_key_dialog APIKeyCredentialsModal.defaultValues
              smtpDirectory [] initial) as (Hnone & _).
  split; [apply Hnone; now left|reflexivity].
Defined.

(** X17. The user-password dialog calls the backend only when the user
    name, the password and the name are all non-empty, with the values as
    typed.  When the backend answers, the credential reported has the id
    and title of the answer, type [user_password] and the directory's
    provider, and the dialog opened by the button is closed; when the
    backend fails nothing is reported and the dialog stays open. *)
Theorem X17_user_password_dialog
    (v : UserPasswordCredentialsModal.Values) (d : CredentialsProviderData)
    (scopes : list string) (w : World) :
  let opened := onClick d scopes EnterUserPasswordButton w in
  (UserPasswordCredentialsModal.handleSubmit v = None <->
   UserPasswordCredentialsModal.username v = ""
   \/ UserPasswordCredentialsModal.password v = ""
   \/ UserPasswordCredentialsModal.title v = "")
  /\ (forall rq,
        UserPasswordCredentialsModal.handleSubmit v = Some rq -> rq = v)
  /\ (forall c,
        let w' := fst (UserPasswordCredentialsModal.onSubmit_resume d
                         (Resolved c) opened) in
        isUserPasswordCredentialsModalOpen opened = true
        /\ isUserPasswordCredentialsModalOpen w' = false
        /\ calls w' = calls w ++ [onSelectCredentials (Some
             {| mi_id := cr_id c; mi_type := user_password;
                mi_title := cr_title c; mi_provider := provider d |})])
  /\ (forall e,
        UserPasswordCredentialsModal.onSubmit_resume d (Rejected e) opened
        = (opened, Throws e)).
Proof.
  intros opened. split; [|split; [|split]].
  - unfold UserPasswordCredentialsModal.handleSubmit,
      UserPasswordCredentialsModal.formSchema.
    destruct (UserPasswordCredentialsModal.username v) as [|a u];
      destruct (UserPasswordCredentialsModal.password v) as [|b p];
      destruct (UserPasswordCredentialsModal.title v) as [|c t]; simpl;
      split; auto; try discriminate; intros [H|[H|H]]; discriminate.
  - intros rq. unfold UserPasswordCredentialsModal.handleSubmit.
    destruct (UserPasswordCredentialsModal.formSchema v); [|discriminate].
    intros [= <-]. now destruct v.
  - intros c w'. repeat split.
  - reflexivity.
Qed.

Lemma X17_user_password_dialog_witness :
  UserPasswordCredentialsModal.handleSubmit
    {| UserPasswordCredentialsModal.username := "me";
       UserPasswordCredentialsModal.password := "";
       UserPasswordCredentialsModal.title := "mail" |} = None.
Proof.
  destruct (X17_user_password_dialog
              {| UserPasswordCredentialsModal.username := "me";
                 UserPasswordCredentialsModal.password := "";
                 UserPasswordCredentialsModal.title := "mail" |}
              smtpDirectory [] initial) as (Hnone & _).
  apply Hnone. right. now left.
Defined.
